(** * Upload lifecycle of the FileUpload component

    Modules [ErrorManager] and [Home] embed the hook the component calls
    ([frontend/src/hooks/useErrorManager.ts]) and the page that mounts it
    ([frontend/src/app/page.tsx]); their properties are in
    [ErrorManagerFacts] and [HomeFacts] at the end. Module [FileUpload] is
    a shallow embedding of
    [frontend/src/components/molecules/FileUpload.tsx]: the React state
    hooks of the component, the polling effect with its interval timer,
    the asynchronous handlers [onDrop], [pollStatus] and [cancelUpload]
    split at their [await] points, and the event loop that interleaves
    user actions, timer ticks and network completions.

    Conventions.
    - A JavaScript number that is only stored and shown (progress, sizes,
      time stamps) is an integer of [Z].
    - A nullable string ([string | null]) is an [option string]; the empty
      string and [null] are the two falsy values of that type.
    - Every observable side effect (HTTP request, toast, console output,
      the [onComplete] prop, [addError]) is appended to a trace, oldest
      first. *)

From Stdlib Require Import ZArith String List Lia Bool Ascii DecimalString.
Import ListNotations.

Open Scope Z_scope.
Open Scope string_scope.

(** * The error manager hook

    [frontend/src/hooks/useErrorManager.ts]: the list of errors kept by
    [useErrorManager] and the operations the hook returns. The component
    below calls [addError] when a start fails. The identifier drawn from
    [Math.random] and the time stamp are inputs of [addError]. *)
Module ErrorManager.

Inductive ErrorType := error | warning | info.

Definition type_eqb (a b : ErrorType) : bool :=
  match a, b with
  | error, error | warning, warning | info, info => true
  | _, _ => false
  end.

Section Hook.

(** The closures stored as [action.onClick]. *)
Variable OnClick : Type.

Record ErrorAction := mkAction { label : string; onClick : OnClick }.

Record ErrorInfo := mkErrorInfo {
  id : string;
  message : string;
  type : ErrorType;
  details : option string;
  action : option ErrorAction;
  timestamp : Z
}.

(** [addError(message, type = 'error', details?, action?)]: the new list
    of errors and the returned identifier. *)
Definition addError (errors : list ErrorInfo) (random : string) (now : Z)
    (message : string) (type : option ErrorType) (details : option string)
    (action : option ErrorAction) : list ErrorInfo * string :=
  let error :=
    mkErrorInfo random message
      (match type with Some t => t | None => error end)
      details action now in
  ((errors ++ [error])%list, id error).

Definition removeError (id0 : string) (errors : list ErrorInfo)
  : list ErrorInfo :=
  filter (fun error => negb (id error =? id0)) errors.

Definition clearAllErrors (errors : list ErrorInfo) : list ErrorInfo := [].

Definition clearErrorsByType (type0 : ErrorType) (errors : list ErrorInfo)
  : list ErrorInfo :=
  filter (fun error => negb (type_eqb (type error) type0)) errors.

Definition getErrorsByType (type0 : ErrorType) (errors : list ErrorInfo)
  : list ErrorInfo :=
  filter (fun error => type_eqb (type error) type0) errors.

Definition hasErrors (errors : list ErrorInfo) : bool :=
  Nat.ltb 0 (List.length errors).

Definition errorCount (errors : list ErrorInfo) : nat :=
  List.length (filter (fun e => type_eqb (type e) error) errors).

Definition warningCount (errors : list ErrorInfo) : nat :=
  List.length (filter (fun e => type_eqb (type e) warning) errors).

Definition infoCount (errors : list ErrorInfo) : nat :=
  List.length (filter (fun e => type_eqb (type e) info) errors).

End Hook.

Arguments mkAction {OnClick}.
Arguments mkErrorInfo {OnClick}.
Arguments id {OnClick}.
Arguments type {OnClick}.
Arguments addError {OnClick}.
Arguments removeError {OnClick}.
Arguments clearAllErrors {OnClick}.
Arguments clearErrorsByType {OnClick}.
Arguments getErrorsByType {OnClick}.
Arguments hasErrors {OnClick}.
Arguments errorCount {OnClick}.
Arguments warningCount {OnClick}.
Arguments infoCount {OnClick}.

(** Sample errors; no action is attached. *)
Definition sampleErrors : list (ErrorInfo unit) :=
  [mkErrorInfo "a1" "Server error" error None None 1;
   mkErrorInfo "b2" "Slow network" warning (Some "retrying") None 2;
   mkErrorInfo "a1" "Saved" info None None 3].

End ErrorManager.

(** * The page that mounts the component

    [frontend/src/app/page.tsx]: the workflow state of [Home], its three
    completion handlers, the step indicator and the choice of the step
    content. A payload of type [any] is an [option]: [None] stands for
    [null] and every other falsy value. *)
Module Home.

(** [l.indexOf(x)]. *)
Fixpoint indexOf_from (l : list string) (x : string) (i : Z) : Z :=
  match l with
  | [] => -1
  | y :: rest => if y =? x then i else indexOf_from rest x (i + 1)
  end.

Definition indexOf (l : list string) (x : string) : Z := indexOf_from l x 0.

(** The keys of the four steps of the indicator, in display order. *)
Definition stepKeys : list string := ["upload"; "analyze"; "fix"; "download"].

Definition isActive (currentStep key : string) : bool := currentStep =? key.

Definition isCompleted (currentStep key : string) : bool :=
  Z.gtb (indexOf ["upload"; "analyze"; "fix"] currentStep)
        (indexOf ["upload"; "analyze"; "fix"] key).

(** The three looks of a step circle and its label. *)
Inductive StepStyle := Active | Completed | Plain.

Definition stepStyle (currentStep key : string) : StepStyle :=
  if isActive currentStep key then Active
  else if isCompleted currentStep key then Completed
  else Plain.

Inductive Panel :=
| Spinner
| FileUploadPanel
| DataAnalysisPanel
| FixPanel
| DownloadPanel.

Section Workflow.

Variables Upload Analysis Fix : Type.

(** The object literal handed to [handleFixComplete] by "Apply Fixes". *)
Variable emptyObject : Fix.

Record State := mkState {
  currentStep : string;
  uploadData : option Upload;
  analysisData : option Analysis;
  fixData : option Fix;
  isLoading : bool;
  showChat : bool;
  showHistory : bool
}.

Definition initial : State := mkState "upload" None None None false false false.

Definition handleUploadComplete (data : option Upload) (s : State) : State :=
  mkState "analyze" data (analysisData s) (fixData s) (isLoading s)
    (showChat s) (showHistory s).

Definition handleAnalysisComplete (data : option Analysis) (s : State) : State :=
  mkState "fix" (uploadData s) data (fixData s) (isLoading s)
    (showChat s) (showHistory s).

Definition handleFixComplete (data : option Fix) (s : State) : State :=
  mkState "download" (uploadData s) (analysisData s) data (isLoading s)
    (showChat s) (showHistory s).

Definition truthy {A} (x : option A) : bool :=
  match x with Some _ => true | None => false end.

(** The step content that is rendered. *)
Definition panels (s : State) : list Panel :=
  ((if isLoading s then [Spinner] else []) ++
   (if negb (isLoading s) && (currentStep s =? "upload")
    then [FileUploadPanel] else []) ++
   (if negb (isLoading s) && (currentStep s =? "analyze") &&
       truthy (uploadData s)
    then [DataAnalysisPanel] else []) ++
   (if negb (isLoading s) && (currentStep s =? "fix") &&
       truthy (analysisData s)
    then [FixPanel] else []) ++
   (if negb (isLoading s) && (currentStep s =? "download") &&
       truthy (fixData s)
    then [DownloadPanel] else []))%list.

(** The completion callbacks are props of the child components and can
    be called whenever a child decides to; the buttons exist only while
    they are rendered. *)
Inductive Event :=
| UploadComplete (data : option Upload)
| AnalysisComplete (data : option Analysis)
| ClickApplyFixes
| ClickChat
| ClickHistory
| CloseChat
| CloseHistory.

Definition step (e : Event) (s : State) : option State :=
  match e with
  | UploadComplete data => Some (handleUploadComplete data s)
  | AnalysisComplete data => Some (handleAnalysisComplete data s)
  | ClickApplyFixes =>
      if negb (isLoading s) && (currentStep s =? "fix") &&
         truthy (analysisData s)
      then Some (handleFixComplete (Some emptyObject) s) else None
  | ClickChat =>
      Some (mkState (currentStep s) (uploadData s) (analysisData s)
              (fixData s) (isLoading s) (negb (showChat s)) (showHistory s))
  | ClickHistory =>
      Some (mkState (currentStep s) (uploadData s) (analysisData s)
              (fixData s) (isLoading s) (showChat s) (negb (showHistory s)))
  | CloseChat =>
      if showChat s
      then Some (mkState (currentStep s) (uploadData s) (analysisData s)
                   (fixData s) (isLoading s) false (showHistory s))
      else None
  | CloseHistory =>
      if showHistory s
      then Some (mkState (currentStep s) (uploadData s) (analysisData s)
                   (fixData s) (isLoading s) (showChat s) false)
      else None
  end.

Fixpoint run (evs : list Event) (s : State) : option State :=
  match evs with
  | [] => Some s
  | e :: rest =>
      match step e s with
      | Some s' => run rest s'
      | None => None
      end
  end.

End Workflow.

Arguments mkState {Upload Analysis Fix}.
Arguments currentStep {Upload Analysis Fix}.
Arguments uploadData {Upload Analysis Fix}.
Arguments analysisData {Upload Analysis Fix}.
Arguments fixData {Upload Analysis Fix}.
Arguments isLoading {Upload Analysis Fix}.
Arguments initial {Upload Analysis Fix}.
Arguments handleUploadComplete {Upload Analysis Fix}.
Arguments handleAnalysisComplete {Upload Analysis Fix}.
Arguments handleFixComplete {Upload Analysis Fix}.
Arguments panels {Upload Analysis Fix}.
Arguments UploadComplete {Upload Analysis}.
Arguments AnalysisComplete {Upload Analysis}.
Arguments ClickApplyFixes {Upload Analysis}.
Arguments ClickChat {Upload Analysis}.
Arguments ClickHistory {Upload Analysis}.
Arguments CloseChat {Upload Analysis}.
Arguments CloseHistory {Upload Analysis}.
Arguments step {Upload Analysis Fix}.
Arguments run {Upload Analysis Fix}.

End Home.

(** * The upload component *)
Module FileUpload.

(** ** Data *)

(** The part of a browser [File] the component reads. *)
Record File := mkFile { name : string; size : Z }.

(** [response.data] of [GET /upload/{id}/status]. *)
Record StatusData := mkStatus {
  st_status : string;
  st_progress : Z;
  st_filename : option string;
  st_file_size : option Z;
  st_error : option string
}.

(** The fields of a rejected axios call that [onDrop] inspects. *)
Record Response := mkResponse {
  resp_status : Z;
  data_message : option string;
  data_detail : option string
}.

Record AxiosError := mkAxiosError {
  code : option string;
  message : string;
  response : option Response
}.

(** The object handed to the [onComplete] prop. *)
Record UploadDescriptor := mkDescriptor {
  upload_id : string;
  filename : option string;
  file_size : option Z;
  upload_time : Z;
  status : string
}.

(** The [useState] cells of the component. *)
Record Component := mkComponent {
  isUploading : bool;
  uploadedFile : option File;
  uploadId : option string;
  uploadProgress : Z;
  uploadStatus : string;
  error : option string;
  showSizeHelper : bool;
  rejectedFile : option File;
  validationErrors : list string;
  validationWarnings : list string;
  showValidation : bool
}.

Inductive Effect :=
| AxiosGet (url : string)
| AxiosPost (url : string) (body : File)
| AxiosDelete (url : string)
| ToastSuccess (msg : string)
| ToastError (msg : string)
| ToastPlain (msg : string)
| ConsoleLog (msg : string)
| ConsoleError (msg : string)
| OnComplete (d : UploadDescriptor)
| AddError (msg kind details label : string).

(** A suspended asynchronous call, with the values its closure captured. *)
Inductive Pending :=
| PendingStatus (id : string)
    (* pollStatus awaiting the GET it issued for [id] *)
| PendingDelete (id : string) (resume : option File)
    (* cancelUpload awaiting the DELETE; [resume] is the file of the
       onDrop call that awaits this cancelUpload, if any *)
| PendingPost (file : File).
    (* onDrop awaiting POST /upload *)

(** What the handlers can touch: the state cells, the calls in flight and
    the trace. *)
Record Ctx := mkCtx {
  comp : Component;
  inflight : list Pending;
  trace : list Effect
}.

(** The mounted component: the handlers' context, the interval created by
    the polling effect (with the [uploadId] its [pollStatus] closed over)
    and the dependency values of the effect's last run. *)
Record World := mkWorld {
  ctx : Ctx;
  interval : option string;
  effectDeps : option string * string
}.

(** ** JavaScript helpers *)

(** [!s] for a nullable string. *)
Definition falsy (s : option string) : bool :=
  match s with
  | None => true
  | Some s => s =? ""
  end.

(** [s || d] for a nullable string [s]. *)
Definition or_else (s : option string) (d : string) : string :=
  match s with
  | None => d
  | Some s => if s =? "" then d else s
  end.

(** [s.includes(pat)]. *)
Fixpoint includes (s pat : string) : bool :=
  prefix pat s ||
  match s with
  | EmptyString => false
  | String _ s' => includes s' pat
  end.

Definition digits (n : Z) : string :=
  NilZero.string_of_uint (N.to_uint (Z.to_N n)).

Definition pad2 (n : Z) : string :=
  if Z.ltb n 10 then "0" ++ digits n else digits n.

(** [(x / d).toFixed(2)] for an integer [x >= 0] below 2^53 and [d] a
    power of two: the quotient is exact in binary floating point and
    toFixed rounds the exact value half up. *)
Definition toFixed2_div (x d : Z) : string :=
  let n := (200 * x + d) / (2 * d) in
  digits (n / 100) ++ "." ++ pad2 (n mod 100).

(** [(x / d).toFixed(0)], same conditions. *)
Definition toFixed0_div (x d : Z) : string :=
  digits ((2 * x + d) / (2 * d)).

Definition option_eqb (a b : option string) : bool :=
  match a, b with
  | None, None => true
  | Some x, Some y => x =? y
  | _, _ => false
  end.

Fixpoint remove_nth {A} (n : nat) (l : list A) : list A :=
  match n, l with
  | _, [] => []
  | O, _ :: t => t
  | S n, h :: t => h :: remove_nth n t
  end.

(** ** State setters and effects *)

Definition Action := Ctx -> Ctx.

Definition seq (a b : Action) : Action := fun c => b (a c).
Notation "a ;; b" := (seq a b) (at level 61, right associativity).

Definition skip : Action := fun c => c.

Definition on_comp (f : Component -> Component) : Action :=
  fun c => mkCtx (f (comp c)) (inflight c) (trace c).

Definition setIsUploading (v : bool) : Action :=
  on_comp (fun s => mkComponent v (uploadedFile s) (uploadId s)
    (uploadProgress s) (uploadStatus s) (error s) (showSizeHelper s)
    (rejectedFile s) (validationErrors s) (validationWarnings s)
    (showValidation s)).

Definition setUploadedFile (v : option File) : Action :=
  on_comp (fun s => mkComponent (isUploading s) v (uploadId s)
    (uploadProgress s) (uploadStatus s) (error s) (showSizeHelper s)
    (rejectedFile s) (validationErrors s) (validationWarnings s)
    (showValidation s)).

Definition setUploadId (v : option string) : Action :=
  on_comp (fun s => mkComponent (isUploading s) (uploadedFile s) v
    (uploadProgress s) (uploadStatus s) (error s) (showSizeHelper s)
    (rejectedFile s) (validationErrors s) (validationWarnings s)
    (showValidation s)).

Definition setUploadProgress (v : Z) : Action :=
  on_comp (fun s => mkComponent (isUploading s) (uploadedFile s) (uploadId s)
    v (uploadStatus s) (error s) (showSizeHelper s)
    (rejectedFile s) (validationErrors s) (validationWarnings s)
    (showValidation s)).

Definition setUploadStatus (v : string) : Action :=
  on_comp (fun s => mkComponent (isUploading s) (uploadedFile s) (uploadId s)
    (uploadProgress s) v (error s) (showSizeHelper s)
    (rejectedFile s) (validationErrors s) (validationWarnings s)
    (showValidation s)).

Definition setError (v : option string) : Action :=
  on_comp (fun s => mkComponent (isUploading s) (uploadedFile s) (uploadId s)
    (uploadProgress s) (uploadStatus s) v (showSizeHelper s)
    (rejectedFile s) (validationErrors s) (validationWarnings s)
    (showValidation s)).

Definition setShowSizeHelper (v : bool) : Action :=
  on_comp (fun s => mkComponent (isUploading s) (uploadedFile s) (uploadId s)
    (uploadProgress s) (uploadStatus s) (error s) v
    (rejectedFile s) (validationErrors s) (validationWarnings s)
    (showValidation s)).

Definition setRejectedFile (v : option File) : Action :=
  on_comp (fun s => mkComponent (isUploading s) (uploadedFile s) (uploadId s)
    (uploadProgress s) (uploadStatus s) (error s) (showSizeHelper s)
    v (validationErrors s) (validationWarnings s)
    (showValidation s)).

Definition setValidationErrors (v : list string) : Action :=
  on_comp (fun s => mkComponent (isUploading s) (uploadedFile s) (uploadId s)
    (uploadProgress s) (uploadStatus s) (error s) (showSizeHelper s)
    (rejectedFile s) v (validationWarnings s)
    (showValidation s)).

Definition setValidationWarnings (v : list string) : Action :=
  on_comp (fun s => mkComponent (isUploading s) (uploadedFile s) (uploadId s)
    (uploadProgress s) (uploadStatus s) (error s) (showSizeHelper s)
    (rejectedFile s) (validationErrors s) v
    (showValidation s)).

Definition setShowValidation (v : bool) : Action :=
  on_comp (fun s => mkComponent (isUploading s) (uploadedFile s) (uploadId s)
    (uploadProgress s) (uploadStatus s) (error s) (showSizeHelper s)
    (rejectedFile s) (validationErrors s) (validationWarnings s)
    v).

Definition emit (e : Effect) : Action :=
  fun c => mkCtx (comp c) (inflight c) (trace c ++ [e])%list.

(** Suspend at an [await]: the call joins the ones in flight. *)
Definition await (p : Pending) : Action :=
  fun c => mkCtx (comp c) (inflight c ++ [p])%list (trace c).

(** ** The handlers *)

Definition statusUrl (id : string) : string :=
  "http://localhost:8000/upload/" ++ id ++ "/status".

Definition uploadUrl : string := "http://localhost:8000/upload".

Definition deleteUrl (id : string) : string :=
  "http://localhost:8000/upload/" ++ id.

(** [pollStatus], up to its [await]: the interval callback of the effect
    whose closure holds [uploadId = id]. *)
Definition pollStatus (id : string) : Action :=
  emit (AxiosGet (statusUrl id)) ;; await (PendingStatus id).

(** [pollStatus] after the GET resolved with [data]; [now] is the value of
    [new Date()]. *)
Definition pollStatus_resolved (id : string) (data : StatusData) (now : Z)
  : Action :=
  setUploadProgress (st_progress data) ;;
  setUploadStatus (st_status data) ;;
  if st_status data =? "uploaded" then
    setUploadStatus "completed" ;;
    setIsUploading false ;;
    emit (ToastSuccess "File uploaded successfully!") ;;
    emit (OnComplete (mkDescriptor id (st_filename data) (st_file_size data)
                        now "uploaded"))
  else if st_status data =? "error" then
    setUploadStatus "error" ;;
    setError (Some (or_else (st_error data) "Upload failed")) ;;
    setIsUploading false ;;
    emit (ToastError (or_else (st_error data) "Upload failed"))
  else skip.

(** The [catch] branch of [pollStatus]. *)
Definition pollStatus_rejected : Action :=
  emit (ConsoleError "Status polling error:") ;;
  setUploadStatus "error" ;;
  setError (Some "Failed to check upload status") ;;
  setIsUploading false.

Definition maxSize : Z := 1024 * 1024 * 1024.

Definition tooLargeMessage (file : File) : string :=
  "File too large: " ++ toFixed2_div (size file) (1024 * 1024) ++
  "MB. Maximum size is " ++ toFixed0_div maxSize (1024 * 1024) ++ "MB.".

(** [onDrop] from [setUploadedFile(file)] to the [await] of the POST. *)
Definition onDrop_start (file : File) : Action :=
  setUploadedFile (Some file) ;;
  setIsUploading true ;;
  setUploadStatus "uploading" ;;
  setUploadProgress 0 ;;
  setError None ;;
  setValidationErrors [] ;;
  setValidationWarnings [] ;;
  setShowValidation false ;;
  emit (ConsoleLog "Starting direct upload...") ;;
  emit (AxiosPost uploadUrl file) ;;
  await (PendingPost file).

(** [cancelUpload] up to its [await]; [resume] is the file of an [onDrop]
    that awaits this call. Without a truthy [uploadId] the call returns at
    once and the awaiting [onDrop] goes on. *)
Definition cancelUpload (resume : option File) : Action :=
  fun c =>
    match uploadId (comp c) with
    | Some id =>
        if id =? "" then
          match resume with Some f => onDrop_start f c | None => c end
        else (emit (AxiosDelete (deleteUrl id)) ;;
              await (PendingDelete id resume)) c
    | None =>
        match resume with Some f => onDrop_start f c | None => c end
    end.

Definition resume_onDrop (resume : option File) : Action :=
  match resume with
  | Some f => onDrop_start f
  | None => skip
  end.

(** [cancelUpload] after the DELETE resolved. *)
Definition cancelUpload_resolved (resume : option File) : Action :=
  setUploadStatus "cancelled" ;;
  setIsUploading false ;;
  setUploadProgress 0 ;;
  emit (ToastPlain "Upload cancelled") ;;
  resume_onDrop resume.

(** The [catch] branch of [cancelUpload]. *)
Definition cancelUpload_rejected (resume : option File) : Action :=
  emit (ConsoleError "Cancel upload error:") ;;
  emit (ToastError "Failed to cancel upload") ;;
  resume_onDrop resume.

(** [onDrop(acceptedFiles)] up to its first [await]. *)
Definition onDrop (acceptedFiles : list File) : Action :=
  match acceptedFiles with
  | [] => skip
  | file :: _ =>
      if Z.gtb (size file) maxSize then
        setUploadStatus "error" ;;
        setError (Some (tooLargeMessage file)) ;;
        setRejectedFile (Some file) ;;
        setShowSizeHelper true ;;
        emit (ToastError (tooLargeMessage file))
      else
        fun c =>
          if negb (falsy (uploadId (comp c))) &&
             (uploadStatus (comp c) =? "uploading")
          then cancelUpload (Some file) c
          else onDrop_start file c
  end.

(** [onDrop] after the POST resolved with [response.data.upload_id = id]. *)
Definition onDrop_resolved (id : string) : Action :=
  emit (ConsoleLog "Upload response:") ;;
  setUploadId (Some id) ;;
  emit (ToastSuccess "Upload started!").

Definition response_status_is (e : AxiosError) (n : Z) : bool :=
  match response e with
  | Some r => Z.eqb (resp_status r) n
  | None => false
  end.

Definition response_message (e : AxiosError) : option string :=
  match response e with
  | Some r => data_message r
  | None => None
  end.

Definition response_detail (e : AxiosError) : option string :=
  match response e with
  | Some r => data_detail r
  | None => None
  end.

(** The pair [(errorMessage, errorDetails)] chosen by the [catch] branch of
    [onDrop]. *)
Definition classify (e : AxiosError) : string * string :=
  if option_eqb (code e) (Some "NETWORK_ERROR") ||
     includes (message e) "Network Error" then
    ("Cannot connect to server",
     "Please ensure the backend is running on http://localhost:8000")
  else if response_status_is e 413 then
    ("File too large", "The file exceeds the maximum size limit of 1GB")
  else if response_status_is e 415 then
    ("Unsupported file type", "Please upload CSV, Excel, or JSON files only")
  else if response_status_is e 500 then
    ("Server error",
     "Please try again or contact support if the issue persists")
  else if option_eqb (code e) (Some "NETWORK_ERROR") then
    ("Network error", "Please check your internet connection and try again")
  else if negb (falsy (response_message e)) then
    (or_else (response_message e) "", or_else (response_detail e) "")
  else ("Failed to start upload", "").

(** The [catch] branch of [onDrop]. *)
Definition onDrop_rejected (e : AxiosError) : Action :=
  emit (ConsoleError "Upload error:") ;;
  emit (ConsoleError "Error details:") ;;
  setUploadStatus "error" ;;
  setError (Some (fst (classify e))) ;;
  setIsUploading false ;;
  emit (AddError (fst (classify e)) "error" (snd (classify e)) "Try Again") ;;
  emit (ToastError (fst (classify e))).

(** The [onClick] shared by "Upload New File", "Try Again" and
    "Start New Upload". *)
Definition resetUpload : Action :=
  setUploadedFile None ;;
  setUploadId None ;;
  setUploadStatus "idle" ;;
  setUploadProgress 0 ;;
  setError None.

(** [onClose] of the size helper. *)
Definition closeSizeHelper : Action :=
  setShowSizeHelper false ;;
  setRejectedFile None ;;
  setUploadStatus "idle" ;;
  setError None.

(** ** The polling effect *)

(** The early [return] of the effect: no interval is created. *)
Definition pollingOff (s : Component) : bool :=
  falsy (uploadId s) ||
  (uploadStatus s =? "completed") ||
  (uploadStatus s =? "error") ||
  (uploadStatus s =? "cancelled").

Definition deps_eqb (a b : option string * string) : bool :=
  option_eqb (fst a) (fst b) && (snd a =? snd b).

(** A render that follows a handler. When [uploadId] or [uploadStatus]
    differs from the last run of the effect, its cleanup clears the
    interval and the effect runs again; otherwise the interval is left as
    it is. (A new [onComplete] prop, the third dependency, replaces the
    interval by one for the same [uploadId].) *)
Definition render (c : Ctx) (old : World) : World :=
  let d := (uploadId (comp c), uploadStatus (comp c)) in
  if deps_eqb d (effectDeps old) then mkWorld c (interval old) (effectDeps old)
  else mkWorld c (if pollingOff (comp c) then None else uploadId (comp c)) d.

(** ** The event loop

    An event is a user action on a rendered control, a tick of the
    interval, or the settling of a call in flight; calls settle in any
    order. Left out: [replaceUpload] (defined, never called),
    [testBackendConnection] (touches no state cell) and the handlers of
    the validation panel (never rendered: [showValidation] is never set).
    The [pointer-events-none] class put on the drop zone while
    [isUploading] is styling; the handlers stay reachable by keyboard. *)

Inductive Event :=
| Drop (acceptedFiles : list File)
| Tick
| StatusResolved (n : nat) (data : StatusData) (now : Z)
| StatusRejected (n : nat)
| ClickCancel
| DeleteResolved (n : nat)
| DeleteRejected (n : nat)
| PostResolved (n : nat) (id : string)
| PostRejected (n : nat) (err : AxiosError)
| ClickReset
| ClickGetHelp
| CloseSizeHelper.

(** The call in flight at position [n] leaves the list when it settles. *)
Definition settle (n : nat) (c : Ctx) : Ctx :=
  mkCtx (comp c) (remove_nth n (inflight c)) (trace c).

Definition error_includes (e : option string) (pat : string) : bool :=
  match e with
  | Some m => includes m pat
  | None => false
  end.

(** The handler an event runs, [None] when the event cannot happen: a
    button that is not rendered, a tick without interval, a completion of
    a call that is not in flight. *)
Definition handle (e : Event) (w : World) : option Ctx :=
  let c := ctx w in
  match e with
  | Drop acceptedFiles => Some (onDrop acceptedFiles c)
  | Tick =>
      match interval w with
      | Some id => Some (pollStatus id c)
      | None => None
      end
  | StatusResolved n data now =>
      match nth_error (inflight c) n with
      | Some (PendingStatus id) =>
          Some (pollStatus_resolved id data now (settle n c))
      | _ => None
      end
  | StatusRejected n =>
      match nth_error (inflight c) n with
      | Some (PendingStatus _) => Some (pollStatus_rejected (settle n c))
      | _ => None
      end
  | ClickCancel =>
      if uploadStatus (comp c) =? "uploading"
      then Some (cancelUpload None c) else None
  | DeleteResolved n =>
      match nth_error (inflight c) n with
      | Some (PendingDelete _ resume) =>
          Some (cancelUpload_resolved resume (settle n c))
      | _ => None
      end
  | DeleteRejected n =>
      match nth_error (inflight c) n with
      | Some (PendingDelete _ resume) =>
          Some (cancelUpload_rejected resume (settle n c))
      | _ => None
      end
  | PostResolved n id =>
      match nth_error (inflight c) n with
      | Some (PendingPost _) => Some (onDrop_resolved id (settle n c))
      | _ => None
      end
  | PostRejected n err =>
      match nth_error (inflight c) n with
      | Some (PendingPost _) => Some (onDrop_rejected err (settle n c))
      | _ => None
      end
  | ClickReset =>
      if (uploadStatus (comp c) =? "completed") ||
         (uploadStatus (comp c) =? "error") ||
         (uploadStatus (comp c) =? "cancelled")
      then Some (resetUpload c) else None
  | ClickGetHelp =>
      if (uploadStatus (comp c) =? "error") &&
         error_includes (error (comp c)) "too large"
      then Some (setShowSizeHelper true c) else None
  | CloseSizeHelper =>
      match rejectedFile (comp c) with
      | Some _ =>
          if showSizeHelper (comp c) then Some (closeSizeHelper c) else None
      | None => None
      end
  end.

Definition step (e : Event) (w : World) : option World :=
  match handle e w with
  | Some c => Some (render c w)
  | None => None
  end.

Fixpoint run (evs : list Event) (w : World) : option World :=
  match evs with
  | [] => Some w
  | e :: rest =>
      match step e w with
      | Some w' => run rest w'
      | None => None
      end
  end.

Definition initialComponent : Component :=
  mkComponent false None None 0 "idle" None false None [] [] false.

(** The component after mounting: the effect ran once and returned early. *)
Definition initial : World :=
  mkWorld (mkCtx initialComponent [] []) None (None, "idle").

Definition reachable (w : World) : Prop :=
  exists evs, run evs initial = Some w.

(** Shorthands for the observations the properties speak about. *)
Definition state (w : World) : Component := comp (ctx w).

Definition isStatus (p : Pending) : bool :=
  match p with
  | PendingStatus _ => true
  | _ => false
  end.

(** The status requests that are dispatched and not yet settled. *)
Definition outstandingPolls (w : World) : nat :=
  List.length (filter isStatus (inflight (ctx w))).

Definition isNetwork (e : Effect) : bool :=
  match e with
  | AxiosGet _ | AxiosPost _ _ | AxiosDelete _ => true
  | _ => false
  end.

(** The HTTP requests of a trace, oldest first. *)
Definition requests (t : list Effect) : list Effect := filter isNetwork t.

Definition completions (t : list Effect) : list UploadDescriptor :=
  flat_map (fun e => match e with OnComplete d => [d] | _ => [] end) t.

(** The effect's bookkeeping agrees with the rendered state. *)
Definition consistent (w : World) : Prop :=
  effectDeps w = (uploadId (state w), uploadStatus (state w)) /\
  interval w = if pollingOff (state w) then None else uploadId (state w).

(** ** Sample inputs *)

Definition sampleFile : File := mkFile "data.csv" (50 * 1024 * 1024).
Definition otherFile : File := mkFile "other.csv" (3 * 1024 * 1024).
Definition hugeFile : File := mkFile "huge.csv" (2 * 1024 * 1024 * 1024).

Definition pending (p : Z) : StatusData := mkStatus "pending" p None None None.

Definition uploaded : StatusData :=
  mkStatus "uploaded" 100 (Some "data.csv") (Some (50 * 1024 * 1024)) None.

(** The world after a file was dropped and the service answered with the
    identifier J1: polling is armed, nothing is in flight. *)
Definition acceptedWorld : World :=
  Eval vm_compute in
    match run [Drop [sampleFile]; PostResolved 0 "J1"] initial with
    | Some w => w
    | None => initial
    end.

(** The same, one tick later: a status request for J1 is in flight. *)
Definition pollingWorld : World :=
  Eval vm_compute in
    match step Tick acceptedWorld with
    | Some w => w
    | None => initial
    end.

(** A world that polls J1 with a reported progress of 50 and one more
    status request in flight. *)
Definition progressedWorld : World :=
  Eval vm_compute in
    match run [StatusResolved 0 (pending 50) 0; Tick] pollingWorld with
    | Some w => w
    | None => initial
    end.

(** J1 is being polled and the service has answered "pending" once. *)
Definition pendingWorld : World :=
  Eval vm_compute in
    match step (StatusResolved 0 (pending 10) 0) pollingWorld with
    | Some w => w
    | None => initial
    end.

(** Two ticks after the acceptance of J1, no response yet. *)
Definition doubleTickWorld : World :=
  Eval vm_compute in
    match step Tick pollingWorld with
    | Some w => w
    | None => initial
    end.

(** J1 is being polled and the user has pressed "Cancel Upload": the
    DELETE is in flight behind one status request. *)
Definition cancellingWorld : World :=
  Eval vm_compute in
    match step ClickCancel pollingWorld with
    | Some w => w
    | None => initial
    end.

(** J1 was started, polled once, cancelled and reset; a second file was
    accepted as J2. The status request issued for J1 is still in flight. *)
Definition supersededWorld : World :=
  Eval vm_compute in
    match run [ClickCancel; DeleteResolved 1; ClickReset;
               Drop [otherFile]; PostResolved 1 "J2"] pollingWorld with
    | Some w => w
    | None => initial
    end.

(** The literal types of the [uploadStatus] state cell. *)
Definition declaredStatuses : list string :=
  ["idle"; "uploading"; "completed"; "error"; "cancelled"].

(** The value of [uploadProgress] after each status response of a run. *)
Fixpoint progressReads (evs : list Event) (w : World) : option (list Z) :=
  match evs with
  | [] => Some []
  | e :: rest =>
      match step e w with
      | None => None
      | Some w' =>
          match progressReads rest w' with
          | None => None
          | Some l =>
              Some (match e with
                    | StatusResolved _ _ _ => uploadProgress (state w') :: l
                    | _ => l
                    end)
          end
      end
  end.

(** The progress values the service reported in a run, in arrival order. *)
Definition reportedProgress (evs : list Event) : list Z :=
  flat_map (fun e => match e with
                     | StatusResolved _ data _ => [st_progress data]
                     | _ => []
                     end) evs.

(** A file was dropped on the fresh component; its POST is in flight and
    no identifier is known yet. *)
Definition transferringWorld : World :=
  Eval vm_compute in
    match step (Drop [sampleFile]) initial with
    | Some w => w
    | None => initial
    end.

(** J1 is being polled with the status "uploading" and a second file was
    dropped: the DELETE for J1 is in flight and the drop waits for it. *)
Definition replacingWorld : World :=
  Eval vm_compute in
    match step (Drop [otherFile]) acceptedWorld with
    | Some w => w
    | None => initial
    end.

(** J1 was polled once and that status request failed. *)
Definition failedPollWorld : World :=
  Eval vm_compute in
    match step (StatusRejected 0) pollingWorld with
    | Some w => w
    | None => initial
    end.




(** The identifiers the service returned in a run. *)
Definition issued (evs : list Event) : list string :=
  flat_map (fun e => match e with
                     | PostResolved _ id => [id]
                     | _ => []
                     end) evs.

(** The identifier a call in flight is about. *)
Definition target (p : Pending) : option string :=
  match p with
  | PendingStatus id => Some id
  | PendingDelete id _ => Some id
  | PendingPost _ => None
  end.

(** A status "error" comes with a non-empty message. *)
Definition errorShown (s : Component) : Prop :=
  uploadStatus s = "error" -> exists m, error s = Some m /\ m <> "".

(** The identifier held and the identifiers of the calls in flight all
    belong to [ids]. *)
Definition knownIds (ids : list string) (c : Ctx) : Prop :=
  (forall id, uploadId (comp c) = Some id -> In id ids) /\
  (forall p id, In p (inflight c) -> target p = Some id -> In id ids).

(** ** The effect invariant *)

Lemma option_eqb_eq (a b : option string) : option_eqb a b = true -> a = b.
Proof.
  destruct a as [x|], b as [y|]; simpl; try discriminate; auto.
  intros H. apply String.eqb_eq in H. now subst.
Qed.

Lemma deps_eqb_eq (a b : option string * string) : deps_eqb a b = true -> a = b.
Proof.
  destruct a as [a1 a2], b as [b1 b2]. unfold deps_eqb; simpl.
  intros H. apply andb_true_iff in H as [H1 H2].
  apply option_eqb_eq in H1. apply String.eqb_eq in H2. now subst.
Qed.

Lemma ctx_render (c : Ctx) (w : World) : ctx (render c w) = c.
Proof. unfold render. now destruct (deps_eqb _ _). Qed.

Lemma state_render (c : Ctx) (w : World) : state (render c w) = comp c.
Proof. unfold state. now rewrite ctx_render. Qed.

Lemma render_consistent (c : Ctx) (w : World) :
  consistent w -> consistent (render c w).
Proof.
  intros [Hd Hi]. unfold consistent. rewrite state_render.
  unfold render.
  destruct (deps_eqb _ _) eqn:E; simpl; [|now split].
  apply deps_eqb_eq in E. rewrite Hd in E. injection E as E1 E2.
  split.
  - now rewrite Hd, E1, E2.
  - rewrite Hi. unfold pollingOff. now rewrite E1, E2.
Qed.

Lemma step_consistent (e : Event) (w w' : World) :
  consistent w -> step e w = Some w' -> consistent w'.
Proof.
  unfold step. intros Hw H.
  destruct (handle e w); [|discriminate].
  injection H as <-. now apply render_consistent.
Qed.

Lemma run_consistent (evs : list Event) :
  forall w w', consistent w -> run evs w = Some w' -> consistent w'.
Proof.
  induction evs as [|e evs IH]; simpl; intros w w' Hw H.
  - now injection H as <-.
  - destruct (step e w) as [w1|] eqn:E; [|discriminate].
    eapply IH; [|exact H]. eapply step_consistent; eauto.
Qed.

Lemma initial_consistent : consistent initial.
Proof. split; reflexivity. Qed.

Lemma reachable_consistent (w : World) : reachable w -> consistent w.
Proof.
  intros [evs H]. eapply run_consistent; [apply initial_consistent | exact H].
Qed.

(** In a consistent world an interval polls the current [uploadId]. *)
Lemma interval_is_current (w : World) (id : string) :
  consistent w -> interval w = Some id -> uploadId (state w) = Some id.
Proof.
  intros [_ Hi] H. rewrite Hi in H.
  now destruct (pollingOff (state w)).
Qed.

Lemma pollingOff_error (s : Component) :
  uploadStatus s = "error" -> pollingOff s = true.
Proof.
  intros H. unfold pollingOff. rewrite H. simpl.
  now rewrite !orb_true_r.
Qed.

Lemma pollingOff_cancelled (s : Component) :
  uploadStatus s = "cancelled" -> pollingOff s = true.
Proof.
  intros H. unfold pollingOff. rewrite H. simpl.
  now rewrite !orb_true_r.
Qed.

Lemma interval_off (w : World) :
  consistent w -> pollingOff (state w) = true -> interval w = None.
Proof. intros [_ Hi] H. now rewrite Hi, H. Qed.

Lemma requests_app (t u : list Effect) :
  requests (t ++ u) = (requests t ++ requests u)%list.
Proof. unfold requests. apply filter_app. Qed.

Lemma nth_error_last {A} (l : list A) (x : A) :
  nth_error (l ++ [x]) (List.length l) = Some x.
Proof. induction l; simpl; auto. Qed.

(** ** Validation of the file size *)

Example scenario_B_message :
  tooLargeMessage hugeFile =
  "File too large: 2048.00MB. Maximum size is 1024MB.".
Proof. reflexivity. Qed.

Example scenario_A :
  exists w,
    run [Drop [sampleFile]; PostResolved 0 "J1";
         Tick; StatusResolved 0 (pending 10) 1;
         Tick; StatusResolved 0 (pending 55) 2;
         Tick; StatusResolved 0 uploaded 3] initial = Some w /\
    uploadStatus (state w) = "completed" /\
    uploadId (state w) = Some "J1" /\
    uploadProgress (state w) = 100 /\
    interval w = None /\
    completions (trace (ctx w)) =
      [mkDescriptor "J1" (Some "data.csv") (Some (50 * 1024 * 1024)) 3
         "uploaded"].
Proof. eexists. split; [vm_compute; reflexivity|]. repeat split. Qed.

(** C4. A dropped file larger than the ceiling [maxSize] is rejected: the
    status becomes "error", the error message is the too-large message
    that quotes the file's size and the limit (both in MB), the file is
    kept as [rejectedFile], no HTTP request is issued, nothing is put in
    flight and [uploadId] is left as it was. *)
Theorem oversized_file_rejected (w : World) (file : File) (rest : list File) :
  size file > maxSize ->
  exists w',
    step (Drop (file :: rest)) w = Some w' /\
    uploadStatus (state w') = "error" /\
    error (state w') =
      Some ("File too large: " ++ toFixed2_div (size file) (1024 * 1024) ++
            "MB. Maximum size is 1024MB.") /\
    rejectedFile (state w') = Some file /\
    showSizeHelper (state w') = true /\
    uploadId (state w') = uploadId (state w) /\
    inflight (ctx w') = inflight (ctx w) /\
    requests (trace (ctx w')) = requests (trace (ctx w)).
Proof.
  intros Hsize. unfold step, handle, onDrop.
  destruct (Z.gtb_spec (size file) maxSize) as [_|Hle]; [|lia].
  eexists. split; [reflexivity|].
  rewrite state_render, ctx_render. simpl.
  repeat split.
  rewrite requests_app. simpl. now rewrite app_nil_r.
Qed.

Lemma oversized_file_rejected_witness :
  exists w',
    step (Drop [hugeFile]) initial = Some w' /\
    uploadStatus (state w') = "error" /\
    error (state w') =
      Some ("File too large: " ++ toFixed2_div (size hugeFile) (1024 * 1024) ++
            "MB. Maximum size is 1024MB.") /\
    rejectedFile (state w') = Some hugeFile /\
    showSizeHelper (state w') = true /\
    uploadId (state w') = uploadId (state initial) /\
    inflight (ctx w') = inflight (ctx initial) /\
    requests (trace (ctx w')) = requests (trace (ctx initial)).
Proof.
  apply (oversized_file_rejected initial hugeFile []).
  vm_compute. reflexivity.
Defined.

(** ** Settling a status request *)

Lemma step_StatusResolved (w : World) (n : nat) (id : string)
    (data : StatusData) (now : Z) :
  nth_error (inflight (ctx w)) n = Some (PendingStatus id) ->
  step (StatusResolved n data now) w =
  Some (render (pollStatus_resolved id data now (settle n (ctx w))) w).
Proof. intros H. unfold step, handle. now rewrite H. Qed.


(** The three shapes of the state after a status response. *)
Lemma pollStatus_resolved_comp (id : string) (data : StatusData) (now : Z)
    (c : Ctx) :
  uploadProgress (comp (pollStatus_resolved id data now c)) = st_progress data /\
  uploadId (comp (pollStatus_resolved id data now c)) = uploadId (comp c) /\
  uploadStatus (comp (pollStatus_resolved id data now c)) =
    (if st_status data =? "uploaded" then "completed" else st_status data).
Proof.
  unfold pollStatus_resolved, seq.
  destruct (st_status data =? "uploaded") eqn:E1; [now simpl|].
  destruct (st_status data =? "error") eqn:E2; simpl; [|easy].
  apply String.eqb_eq in E2. now rewrite E2.
Qed.





(** C10. A status response whose status is neither "uploaded" nor "error"
    leaves the raw remote status string in [uploadStatus]; a string
    outside the declared literals (such as "pending") thus becomes the
    component's status. *)
Theorem nonterminal_status_stored_raw (w : World) (n : nat) (id : string)
    (data : StatusData) (now : Z) :
  nth_error (inflight (ctx w)) n = Some (PendingStatus id) ->
  st_status data <> "uploaded" ->
  st_status data <> "error" ->
  exists w',
    step (StatusResolved n data now) w = Some w' /\
    uploadStatus (state w') = st_status data /\
    (~ In (st_status data) declaredStatuses ->
     ~ In (uploadStatus (state w')) declaredStatuses).
Proof.
  intros Hn Hu He. eexists.
  split; [apply (step_StatusResolved w n id); exact Hn|].
  rewrite state_render.
  destruct (pollStatus_resolved_comp id data now (settle n (ctx w)))
    as (_ & _ & Hs).
  apply String.eqb_neq in Hu. rewrite Hu in Hs. rewrite Hs. auto.
Qed.

Lemma nonterminal_status_stored_raw_witness :
  exists w',
    step (StatusResolved 0 (pending 10) 0) pollingWorld = Some w' /\
    uploadStatus (state w') = "pending" /\
    (~ In "pending" declaredStatuses ->
     ~ In (uploadStatus (state w')) declaredStatuses).
Proof.
  apply (nonterminal_status_stored_raw pollingWorld 0 "J1" (pending 10) 0).
  - reflexivity.
  - simpl; discriminate.
  - simpl; discriminate.
Defined.

Example pending_not_declared : ~ In "pending" declaredStatuses.
Proof. simpl. intros [H|[H|[H|[H|[H|[]]]]]]; discriminate. Qed.

(** ** A remote "error" status *)

Lemma pollStatus_resolved_error (id : string) (data : StatusData) (now : Z)
    (c : Ctx) :
  st_status data = "error" ->
  pollStatus_resolved id data now c =
  (setUploadProgress (st_progress data) ;;
   setUploadStatus "error" ;;
   setUploadStatus "error" ;;
   setError (Some (or_else (st_error data) "Upload failed")) ;;
   setIsUploading false ;;
   emit (ToastError (or_else (st_error data) "Upload failed"))) c.
Proof. intros H. unfold pollStatus_resolved, seq. now rewrite H. Qed.

(** C9, as the claim has it, fails: an error field that is present but
    empty is not used as the message. *)
Lemma remote_error_message_counterexample :
  ~ (forall (w : World) (n : nat) (id : string) (data : StatusData) (now : Z),
       consistent w ->
       nth_error (inflight (ctx w)) n = Some (PendingStatus id) ->
       st_status data = "error" ->
       exists w',
         step (StatusResolved n data now) w = Some w' /\
         uploadStatus (state w') = "error" /\
         error (state w') =
           Some (match st_error data with
                 | Some m => m
                 | None => "Upload failed"
                 end) /\
         interval w' = None).
Proof.
  intros H.
  destruct (H pollingWorld 0%nat "J1" (mkStatus "error" 40 None None (Some "")) 0)
    as (w' & Hstep & _ & Herr & _).
  - split; reflexivity.
  - reflexivity.
  - reflexivity.
  - vm_compute in Hstep. injection Hstep as <-. discriminate Herr.
Qed.

(** C9, amended. A status response with status "error" sets the status to
    "error", drops the uploading flag, shows the message as an error
    toast and ends polling; the message is the payload's error field when
    that is a non-empty string and "Upload failed" when it is absent or
    empty. *)
Theorem remote_error_fails_session (w : World) (n : nat) (id : string)
    (data : StatusData) (now : Z) :
  consistent w ->
  nth_error (inflight (ctx w)) n = Some (PendingStatus id) ->
  st_status data = "error" ->
  exists w' msg,
    step (StatusResolved n data now) w = Some w' /\
    uploadStatus (state w') = "error" /\
    error (state w') = Some msg /\
    (forall m, st_error data = Some m -> m <> "" -> msg = m) /\
    (st_error data = None \/ st_error data = Some "" -> msg = "Upload failed") /\
    isUploading (state w') = false /\
    trace (ctx w') = (trace (ctx w) ++ [ToastError msg])%list /\
    interval w' = None /\
    step Tick w' = None.
Proof.
  intros Hw Hn Hs.
  exists (render (pollStatus_resolved id data now (settle n (ctx w))) w).
  exists (or_else (st_error data) "Upload failed").
  split; [apply (step_StatusResolved w n id); exact Hn|].
  assert (Hc : consistent
            (render (pollStatus_resolved id data now (settle n (ctx w))) w))
    by now apply render_consistent.
  assert (Hi : interval
            (render (pollStatus_resolved id data now (settle n (ctx w))) w)
          = None).
  { apply interval_off; [exact Hc|]. apply pollingOff_error.
    rewrite state_render. now rewrite pollStatus_resolved_error. }
  assert (Ht : step Tick
            (render (pollStatus_resolved id data now (settle n (ctx w))) w)
          = None).
  { unfold step, handle. now rewrite Hi. }
  rewrite (pollStatus_resolved_error id data now (settle n (ctx w)) Hs) in *.
  rewrite state_render, ctx_render.
  repeat split; auto.
  - intros m Hm Hne. rewrite Hm. simpl.
    apply String.eqb_neq in Hne. now rewrite Hne.
  - intros [Hm|Hm]; now rewrite Hm.
Qed.

Lemma remote_error_fails_session_witness :
  exists w' msg,
    step (StatusResolved 0 (mkStatus "error" 40 None None (Some "corrupt file")) 0)
      pollingWorld = Some w' /\
    uploadStatus (state w') = "error" /\
    error (state w') = Some msg /\
    (forall m, Some "corrupt file" = Some m -> m <> "" -> msg = m) /\
    (Some "corrupt file" = None \/ Some "corrupt file" = Some "" ->
     msg = "Upload failed") /\
    isUploading (state w') = false /\
    trace (ctx w') = (trace (ctx pollingWorld) ++ [ToastError msg])%list /\
    interval w' = None /\
    step Tick w' = None.
Proof.
  apply (remote_error_fails_session pollingWorld 0 "J1"
           (mkStatus "error" 40 None None (Some "corrupt file")) 0).
  - split; reflexivity.
  - reflexivity.
  - reflexivity.
Defined.

Example scenario_D :
  exists w',
    step (StatusResolved 0 (mkStatus "error" 40 None None (Some "corrupt file")) 0)
      pollingWorld = Some w' /\
    uploadStatus (state w') = "error" /\
    error (state w') = Some "corrupt file".
Proof. eexists. split; [reflexivity|]. split; reflexivity. Qed.

(** ** Progress *)

Lemma progressedWorld_reachable : reachable progressedWorld.
Proof.
  exists [Drop [sampleFile]; PostResolved 0 "J1"; Tick;
          StatusResolved 0 (pending 50) 0; Tick].
  reflexivity.
Qed.

(** C6, as the claim has it, fails: between two polling states the
    progress value drops when the service reports a smaller one. *)
Lemma progress_monotone_counterexample :
  ~ (forall (w w' : World) (n : nat) (id : string) (data : StatusData) (now : Z),
       reachable w ->
       interval w <> None ->
       nth_error (inflight (ctx w)) n = Some (PendingStatus id) ->
       step (StatusResolved n data now) w = Some w' ->
       interval w' <> None ->
       uploadProgress (state w) <= uploadProgress (state w')).
Proof.
  intros H.
  assert (Hle : uploadProgress (state progressedWorld) <=
                uploadProgress
                  (state (render (pollStatus_resolved "J1" (pending 30) 0
                                    (settle 0 (ctx progressedWorld)))
                            progressedWorld))).
  { apply (H progressedWorld _ 0%nat "J1" (pending 30) 0).
    - exact progressedWorld_reachable.
    - discriminate.
    - reflexivity.
    - reflexivity.
    - discriminate. }
  vm_compute in Hle. apply Hle. reflexivity.
Qed.

(** C6, amended. Every status response overwrites [uploadProgress] with
    the progress of its payload: over any run the values read after the
    status responses are exactly the reported ones, so they are
    non-decreasing exactly when the reported values are. *)
Theorem progress_follows_payload (evs : list Event) :
  forall (w w' : World),
    run evs w = Some w' ->
    progressReads evs w = Some (reportedProgress evs).
Proof.
  induction evs as [|e evs IH]; simpl; intros w w' H.
  - reflexivity.
  - destruct (step e w) as [w1|] eqn:Es; [|discriminate].
    rewrite (IH w1 w' H).
    destruct e; simpl; auto.
    do 2 f_equal. unfold step, handle in Es.
    destruct (nth_error (inflight (ctx w)) n) as [[id| |]|]; try discriminate.
    injection Es as <-. rewrite state_render.
    now destruct (pollStatus_resolved_comp id data now (settle n (ctx w))).
Qed.

Lemma progress_follows_payload_witness :
  reportedProgress [StatusResolved 0 (pending 50) 0; Tick;
                    StatusResolved 0 (pending 30) 0] = [50; 30] /\
  progressReads [StatusResolved 0 (pending 50) 0; Tick;
                 StatusResolved 0 (pending 30) 0] pollingWorld =
  Some (reportedProgress [StatusResolved 0 (pending 50) 0; Tick;
                          StatusResolved 0 (pending 30) 0]).
Proof.
  split; [reflexivity|].
  eapply (progress_follows_payload
            [StatusResolved 0 (pending 50) 0; Tick;
             StatusResolved 0 (pending 30) 0] pollingWorld).
  vm_compute. reflexivity.
Defined.

(** ** Responses for a superseded identifier *)

Lemma supersededWorld_reachable : reachable supersededWorld.
Proof.
  exists [Drop [sampleFile]; PostResolved 0 "J1"; Tick;
          ClickCancel; DeleteResolved 1; ClickReset;
          Drop [otherFile]; PostResolved 1 "J2"].
  reflexivity.
Qed.

Lemma completions_app (t u : list Effect) :
  completions (t ++ u) = (completions t ++ completions u)%list.
Proof. unfold completions. apply flat_map_app. Qed.

(** C1, as the claim has it, fails: the response to a status request
    issued for J1 arrives when the session's identifier is J2, and it
    completes the session and calls [onComplete]. *)
Lemma stale_response_counterexample :
  ~ (forall (w w' : World) (n : nat) (id : string) (data : StatusData) (now : Z),
       reachable w ->
       nth_error (inflight (ctx w)) n = Some (PendingStatus id) ->
       uploadId (state w) <> Some id ->
       step (StatusResolved n data now) w = Some w' ->
       state w' = state w /\
       completions (trace (ctx w')) = completions (trace (ctx w))).
Proof.
  intros H.
  destruct (H supersededWorld
              (render (pollStatus_resolved "J1" uploaded 7
                         (settle 0 (ctx supersededWorld))) supersededWorld)
              0%nat "J1" uploaded 7) as [Hst _].
  - exact supersededWorld_reachable.
  - reflexivity.
  - discriminate.
  - reflexivity.
  - vm_compute in Hst. discriminate Hst.
Qed.

(** C1, amended. A status response is applied whatever identifier its
    request was issued for; the session's current [uploadId] is not
    consulted. Progress and status are overwritten from the payload, an
    "uploaded" payload calls [onComplete] with the request's identifier.
    Supersession acts on the timer only: an interval that exists polls
    the current [uploadId]. *)
Theorem status_response_applied_for_any_id (w : World) (n : nat) (id : string)
    (data : StatusData) (now : Z) :
  consistent w ->
  nth_error (inflight (ctx w)) n = Some (PendingStatus id) ->
  exists w',
    step (StatusResolved n data now) w = Some w' /\
    uploadProgress (state w') = st_progress data /\
    uploadStatus (state w') =
      (if st_status data =? "uploaded" then "completed" else st_status data) /\
    uploadId (state w') = uploadId (state w) /\
    (st_status data = "uploaded" ->
     completions (trace (ctx w')) =
     (completions (trace (ctx w)) ++
      [mkDescriptor id (st_filename data) (st_file_size data) now "uploaded"])%list) /\
    (forall id', interval w' = Some id' -> uploadId (state w') = Some id').
Proof.
  intros Hw Hn. eexists.
  split; [apply (step_StatusResolved w n id); exact Hn|].
  destruct (pollStatus_resolved_comp id data now (settle n (ctx w)))
    as (Hp & Hu & Hs).
  rewrite state_render, ctx_render. repeat split; auto.
  - intros Hup. unfold pollStatus_resolved, seq. rewrite Hup. simpl.
    rewrite !completions_app. simpl. now rewrite app_nil_r.
  - intros id' Hi. rewrite <- state_render with (w := w).
    apply interval_is_current; [now apply render_consistent | exact Hi].
Qed.

Lemma status_response_applied_for_any_id_witness :
  uploadId (state supersededWorld) = Some "J2" /\
  exists w',
    step (StatusResolved 0 uploaded 7) supersededWorld = Some w' /\
    uploadProgress (state w') = st_progress uploaded /\
    uploadStatus (state w') =
      (if st_status uploaded =? "uploaded"
       then "completed" else st_status uploaded) /\
    uploadId (state w') = uploadId (state supersededWorld) /\
    (st_status uploaded = "uploaded" ->
     completions (trace (ctx w')) =
     (completions (trace (ctx supersededWorld)) ++
      [mkDescriptor "J1" (st_filename uploaded) (st_file_size uploaded) 7
         "uploaded"])%list) /\
    (forall id', interval w' = Some id' -> uploadId (state w') = Some id').
Proof.
  split; [reflexivity|].
  apply (status_response_applied_for_any_id supersededWorld 0 "J1" uploaded 7).
  - split; reflexivity.
  - reflexivity.
Defined.

(** ** Requests in flight *)

Lemma doubleTickWorld_reachable : reachable doubleTickWorld.
Proof.
  exists [Drop [sampleFile]; PostResolved 0 "J1"; Tick; Tick].
  vm_compute. reflexivity.
Qed.

(** C3, as the claim has it, fails: two ticks without a response in
    between leave two status requests outstanding. *)
Lemma single_outstanding_poll_counterexample :
  ~ (forall w : World,
       reachable w -> interval w <> None -> (outstandingPolls w <= 1)%nat).
Proof.
  intros H.
  assert (Ho : (outstandingPolls doubleTickWorld <= 1)%nat).
  { apply H; [exact doubleTickWorld_reachable | discriminate]. }
  vm_compute in Ho. lia.
Qed.

Lemma deps_eqb_refl (d : option string * string) : deps_eqb d d = true.
Proof.
  destruct d as [[x|] y]; unfold deps_eqb; simpl;
    now rewrite ?String.eqb_refl.
Qed.

(** A handler that leaves [uploadId] and [uploadStatus] alone leaves the
    interval alone. *)
Lemma render_same_deps (c : Ctx) (w : World) :
  consistent w ->
  uploadId (comp c) = uploadId (state w) ->
  uploadStatus (comp c) = uploadStatus (state w) ->
  render c w = mkWorld c (interval w) (effectDeps w).
Proof.
  intros [Hd _] H1 H2. unfold render. rewrite H1, H2, Hd.
  now rewrite deps_eqb_refl.
Qed.

(** C3, amended. While an interval exists every tick dispatches one more
    status request for the interval's identifier, whatever number of
    earlier requests is still outstanding, and leaves the interval in
    place; the number of outstanding requests is bounded by the ticks, not
    by one. *)
Theorem tick_dispatches_regardless (w : World) (id : string) :
  consistent w ->
  interval w = Some id ->
  exists w',
    step Tick w = Some w' /\
    outstandingPolls w' = S (outstandingPolls w) /\
    trace (ctx w') = (trace (ctx w) ++ [AxiosGet (statusUrl id)])%list /\
    state w' = state w /\
    interval w' = Some id.
Proof.
  intros Hw Hi. unfold step, handle. rewrite Hi.
  eexists. split; [reflexivity|].
  rewrite render_same_deps; auto.
  repeat split; auto.
  unfold outstandingPolls. simpl.
  rewrite filter_app, length_app. simpl. lia.
Qed.

Lemma tick_dispatches_regardless_witness :
  outstandingPolls pollingWorld = 1%nat /\
  exists w',
    step Tick pollingWorld = Some w' /\
    outstandingPolls w' = S (outstandingPolls pollingWorld) /\
    trace (ctx w') =
      (trace (ctx pollingWorld) ++ [AxiosGet (statusUrl "J1")])%list /\
    state w' = state pollingWorld /\
    interval w' = Some "J1".
Proof.
  split; [reflexivity|].
  apply (tick_dispatches_regardless pollingWorld "J1").
  - split; reflexivity.
  - reflexivity.
Defined.

(** ** Cancellation *)

Lemma cancellingWorld_reachable : reachable cancellingWorld.
Proof.
  exists [Drop [sampleFile]; PostResolved 0 "J1"; Tick; ClickCancel].
  vm_compute. reflexivity.
Qed.

Lemma pollingOn_uploading (s : Component) (id : string) :
  uploadId s = Some id -> id <> "" -> uploadStatus s = "uploading" ->
  pollingOff s = false.
Proof.
  intros H1 H2 H3. unfold pollingOff. rewrite H1, H3. simpl.
  apply String.eqb_neq in H2. now rewrite H2.
Qed.

(** C2, as the claim has it, fails: when cancel is invoked the DELETE is
    issued while the status is still "uploading" and the interval still
    exists, and a failed DELETE leaves both as they were. *)
Lemma optimistic_cancel_counterexample :
  ~ (forall (w w1 : World) (id : string),
       reachable w ->
       uploadId (state w) = Some id ->
       step ClickCancel w = Some w1 ->
       In (AxiosDelete (deleteUrl id)) (trace (ctx w1)) ->
       uploadStatus (state w1) = "cancelled" /\ interval w1 = None).
Proof.
  intros H.
  destruct (H pollingWorld cancellingWorld "J1") as [Hs _].
  - exists [Drop [sampleFile]; PostResolved 0 "J1"; Tick].
    vm_compute. reflexivity.
  - reflexivity.
  - reflexivity.
  - vm_compute. tauto.
  - vm_compute in Hs. discriminate Hs.
Qed.

(** C2, amended. A cancel invoked from the "Cancel Upload" button (shown
    while the status is "uploading") with a non-empty identifier held
    issues the DELETE first and changes nothing locally: the state cells
    are as before and the interval keeps polling that identifier. When the
    DELETE then succeeds the status becomes "cancelled", the uploading
    flag is dropped, the progress is reset and the interval is removed;
    when it then fails the state cells and the interval are as before the
    click (polling goes on) and the failure is logged and reported by an
    error toast. *)
Theorem cancel_waits_for_remote (w : World) (id : string) :
  consistent w ->
  uploadId (state w) = Some id ->
  id <> "" ->
  uploadStatus (state w) = "uploading" ->
  exists w1,
    step ClickCancel w = Some w1 /\
    state w1 = state w /\
    interval w1 = Some id /\
    trace (ctx w1) = (trace (ctx w) ++ [AxiosDelete (deleteUrl id)])%list /\
    (exists w2,
       step (DeleteResolved (List.length (inflight (ctx w)))) w1 = Some w2 /\
       uploadStatus (state w2) = "cancelled" /\
       isUploading (state w2) = false /\
       uploadProgress (state w2) = 0 /\
       interval w2 = None) /\
    (exists w3,
       step (DeleteRejected (List.length (inflight (ctx w)))) w1 = Some w3 /\
       state w3 = state w /\
       interval w3 = Some id /\
       trace (ctx w3) =
         (trace (ctx w1) ++ [ConsoleError "Cancel upload error:";
                             ToastError "Failed to cancel upload"])%list).
Proof.
  intros Hw Hid Hne Hst.
  assert (Hint : interval w = Some id).
  { destruct Hw as [_ Hi]. rewrite Hi.
    now rewrite (pollingOn_uploading (state w) id), Hid. }
  assert (Hne' : (id =? "") = false) by now apply String.eqb_neq.
  set (c1 := mkCtx (comp (ctx w))
               (inflight (ctx w) ++ [PendingDelete id None])%list
               (trace (ctx w) ++ [AxiosDelete (deleteUrl id)])%list).
  assert (Hstep : step ClickCancel w = Some (mkWorld c1 (interval w) (effectDeps w))).
  { unfold step, handle. fold (state w). rewrite Hst. simpl.
    unfold cancelUpload. fold (state w). rewrite Hid, Hne'.
    rewrite render_same_deps; auto. }
  set (w1 := mkWorld c1 (interval w) (effectDeps w)) in *.
  assert (Hw1 : consistent w1).
  { eapply step_consistent; [exact Hw | exact Hstep]. }
  assert (Hnth : nth_error (inflight (ctx w1)) (List.length (inflight (ctx w)))
                 = Some (PendingDelete id None)) by apply nth_error_last.
  exists w1. split; [exact Hstep|]. repeat split; auto.
  - eexists. split.
    { unfold step, handle. rewrite Hnth. reflexivity. }
    rewrite state_render. repeat split.
    apply interval_off; [now apply render_consistent|].
    apply pollingOff_cancelled. now rewrite state_render.
  - eexists. split.
    { unfold step, handle. rewrite Hnth. reflexivity. }
    rewrite render_same_deps; auto.
    repeat split; auto.
    simpl. now rewrite <- app_assoc.
Qed.

Lemma cancel_waits_for_remote_witness :
  exists w1,
    step ClickCancel pollingWorld = Some w1 /\
    state w1 = state pollingWorld /\
    interval w1 = Some "J1" /\
    trace (ctx w1) =
      (trace (ctx pollingWorld) ++ [AxiosDelete (deleteUrl "J1")])%list /\
    (exists w2,
       step (DeleteResolved (List.length (inflight (ctx pollingWorld)))) w1
         = Some w2 /\
       uploadStatus (state w2) = "cancelled" /\
       isUploading (state w2) = false /\
       uploadProgress (state w2) = 0 /\
       interval w2 = None) /\
    (exists w3,
       step (DeleteRejected (List.length (inflight (ctx pollingWorld)))) w1
         = Some w3 /\
       state w3 = state pollingWorld /\
       interval w3 = Some "J1" /\
       trace (ctx w3) =
         (trace (ctx w1) ++ [ConsoleError "Cancel upload error:";
                             ToastError "Failed to cancel upload"])%list).
Proof.
  apply (cancel_waits_for_remote pollingWorld "J1").
  - split; reflexivity.
  - reflexivity.
  - discriminate.
  - reflexivity.
Defined.

(** C8, as the claim has it, fails: after the DELETE has succeeded the
    component still holds the cancelled identifier. *)
Lemma cancel_clears_id_counterexample :
  ~ (forall (w w' : World) (n : nat) (id : string) (resume : option File),
       reachable w ->
       nth_error (inflight (ctx w)) n = Some (PendingDelete id resume) ->
       step (DeleteResolved n) w = Some w' ->
       uploadId (state w') = None).
Proof.
  intros H.
  assert (Hid : uploadId (state
                  (render (cancelUpload_resolved None
                             (settle 1 (ctx cancellingWorld))) cancellingWorld))
                = None).
  { apply (H cancellingWorld _ 1%nat "J1" None).
    - exact cancellingWorld_reachable.
    - reflexivity.
    - reflexivity. }
  vm_compute in Hid. discriminate Hid.
Qed.

(** C8, amended. When a cancellation invoked from the "Cancel Upload"
    button completes, the identifier is not cleared: the status becomes
    "cancelled" and the interval is removed, and [uploadId] is left
    exactly as it was at that moment. The identifier is cleared when the
    user then resets the component ("Start New Upload"); after that
    reset, a start of a file within the limit stores the identifier the
    service returns for the new transfer, whichever it is. *)
Theorem cancel_keeps_id_until_reset (w : World) (n : nat) (id : string) :
  consistent w ->
  nth_error (inflight (ctx w)) n = Some (PendingDelete id None) ->
  exists w',
    step (DeleteResolved n) w = Some w' /\
    uploadId (state w') = uploadId (state w) /\
    uploadStatus (state w') = "cancelled" /\
    interval w' = None /\
    (exists w'',
       step ClickReset w' = Some w'' /\
       uploadId (state w'') = None /\
       uploadStatus (state w'') = "idle") /\
    (forall (file : File) (id' : string),
       size file <= maxSize ->
       exists w3,
         run [ClickReset; Drop [file];
              PostResolved (List.length (inflight (ctx w'))) id'] w' = Some w3 /\
         uploadId (state w3) = Some id').
Proof.
  intros Hw Hn.
  set (c' := cancelUpload_resolved None (settle n (ctx w))).
  assert (Hstep : step (DeleteResolved n) w = Some (render c' w)).
  { unfold step, handle. now rewrite Hn. }
  assert (Hc : consistent (render c' w)) by now apply render_consistent.
  assert (Hreset : step ClickReset (render c' w)
                   = Some (render (resetUpload c') (render c' w))).
  { unfold step, handle. now rewrite ctx_render. }
  exists (render c' w). split; [exact Hstep|].
  rewrite state_render, ctx_render. repeat split.
  - apply interval_off; [exact Hc|].
    apply pollingOff_cancelled. now rewrite state_render.
  - eexists. split; [exact Hreset|]. now rewrite state_render.
  - intros file id' Hsize. cbn [run]. rewrite Hreset.
    unfold step at 1, handle. rewrite ctx_render. unfold onDrop.
    destruct (Z.gtb_spec (size file) maxSize) as [Hgt|_]; [lia|].
    cbn [falsy uploadId comp resetUpload seq setError setUploadProgress
         setUploadStatus setUploadId setUploadedFile on_comp negb andb].
    unfold step, handle. rewrite ctx_render.
    cbn [onDrop_start seq await emit inflight setShowValidation
         setValidationWarnings setValidationErrors setError setUploadProgress
         setUploadStatus setIsUploading setUploadedFile on_comp
         cancelUpload_resolved resume_onDrop skip settle c'].
    rewrite nth_error_last.
    eexists. split; [reflexivity|].
    now rewrite state_render.
Qed.

Lemma cancel_keeps_id_until_reset_witness :
  exists w',
    step (DeleteResolved 1) cancellingWorld = Some w' /\
    uploadId (state w') = uploadId (state cancellingWorld) /\
    uploadStatus (state w') = "cancelled" /\
    interval w' = None /\
    (exists w'',
       step ClickReset w' = Some w'' /\
       uploadId (state w'') = None /\
       uploadStatus (state w'') = "idle") /\
    (forall (file : File) (id' : string),
       size file <= maxSize ->
       exists w3,
         run [ClickReset; Drop [file];
              PostResolved (List.length (inflight (ctx w'))) id'] w' = Some w3 /\
         uploadId (state w3) = Some id').
Proof.
  apply (cancel_keeps_id_until_reset cancellingWorld 1 "J1").
  - split; reflexivity.
  - reflexivity.
Defined.

(** ** A new selection during an upload *)

Lemma pendingWorld_reachable : reachable pendingWorld.
Proof.
  exists [Drop [sampleFile]; PostResolved 0 "J1"; Tick;
          StatusResolved 0 (pending 10) 0].
  vm_compute. reflexivity.
Qed.

(** With the status "uploading" and an identifier, a drop issues the
    DELETE for that identifier and nothing else; the POST follows when the
    DELETE has settled, whether it succeeded or not. *)
Lemma drop_while_uploading_cancels_first (w : World) (id : string)
    (file : File) (rest : list File) :
  uploadId (state w) = Some id ->
  id <> "" ->
  uploadStatus (state w) = "uploading" ->
  size file <= maxSize ->
  exists w1,
    step (Drop (file :: rest)) w = Some w1 /\
    trace (ctx w1) = (trace (ctx w) ++ [AxiosDelete (deleteUrl id)])%list /\
    inflight (ctx w1) = (inflight (ctx w) ++ [PendingDelete id (Some file)])%list /\
    (forall w2,
       step (DeleteResolved (List.length (inflight (ctx w)))) w1 = Some w2 ->
       trace (ctx w2) =
         (trace (ctx w1) ++ [ToastPlain "Upload cancelled";
                             ConsoleLog "Starting direct upload...";
                             AxiosPost uploadUrl file])%list) /\
    (forall w2,
       step (DeleteRejected (List.length (inflight (ctx w)))) w1 = Some w2 ->
       trace (ctx w2) =
         (trace (ctx w1) ++ [ConsoleError "Cancel upload error:";
                             ToastError "Failed to cancel upload";
                             ConsoleLog "Starting direct upload...";
                             AxiosPost uploadUrl file])%list).
Proof.
  intros Hid Hne Hst Hsize.
  assert (Hne' : (id =? "") = false) by now apply String.eqb_neq.
  eexists. split.
  { unfold step, handle, onDrop.
    destruct (Z.gtb_spec (size file) maxSize) as [Hgt|_]; [lia|].
    fold (state w). rewrite Hid, Hst. simpl. rewrite Hne'. simpl.
    unfold cancelUpload. fold (state w). rewrite Hid, Hne'. reflexivity. }
  rewrite ctx_render. simpl. repeat split.
  - intros w2. unfold step, handle. rewrite ctx_render. simpl.
    rewrite nth_error_last. intros H. injection H as <-.
    rewrite ctx_render. simpl. now rewrite <- !app_assoc.
  - intros w2. unfold step, handle. rewrite ctx_render. simpl.
    rewrite nth_error_last. intros H. injection H as <-.
    rewrite ctx_render. simpl. now rewrite <- !app_assoc.
Qed.

(** With any other status the drop goes straight to the POST: nothing is
    cancelled, whether or not an identifier is held. *)
Lemma drop_without_uploading_status_posts_at_once (w : World) (file : File)
    (rest : list File) :
  uploadStatus (state w) <> "uploading" ->
  size file <= maxSize ->
  exists w1,
    step (Drop (file :: rest)) w = Some w1 /\
    trace (ctx w1) =
      (trace (ctx w) ++ [ConsoleLog "Starting direct upload...";
                         AxiosPost uploadUrl file])%list /\
    inflight (ctx w1) = (inflight (ctx w) ++ [PendingPost file])%list /\
    uploadId (state w1) = uploadId (state w).
Proof.
  intros Hst Hsize. apply String.eqb_neq in Hst.
  eexists. split.
  { unfold step, handle, onDrop.
    destruct (Z.gtb_spec (size file) maxSize) as [Hgt|_]; [lia|].
    fold (state w). rewrite Hst, andb_false_r. reflexivity. }
  rewrite state_render, ctx_render. simpl.
  repeat split. now rewrite <- app_assoc.
Qed.

(** C5. The code at the failing input: J1 is held and polled, the last
    response left the status "pending", and a second file is dropped. The
    POST for the new file is issued at once and no DELETE for J1 is ever
    issued; the interval goes on polling J1. *)
Theorem drop_while_pending_skips_cancel :
  uploadId (state pendingWorld) = Some "J1" /\
  uploadStatus (state pendingWorld) = "pending" /\
  interval pendingWorld = Some "J1" /\
  exists w',
    step (Drop [otherFile]) pendingWorld = Some w' /\
    requests (trace (ctx w')) =
      [AxiosPost uploadUrl sampleFile;
       AxiosGet (statusUrl "J1");
       AxiosPost uploadUrl otherFile] /\
    inflight (ctx w') = [PendingPost otherFile] /\
    uploadId (state w') = Some "J1" /\
    interval w' = Some "J1".
Proof.
  repeat split.
  eexists. split; [vm_compute; reflexivity|].
  repeat split.
Qed.

(** ** Further properties of the component *)


Lemma pollingWorld_reachable : reachable pollingWorld.
Proof.
  exists [Drop [sampleFile]; PostResolved 0 "J1"; Tick].
  vm_compute. reflexivity.
Qed.

(** X2. When the POST of a start fails, the status becomes "error" with
    the classified message, the uploading flag is dropped, the error is
    handed to the error manager with a "Try Again" action, [uploadId] is
    left as it was, no request is issued and no interval exists
    afterwards. *)
Theorem failed_start_fails_session (w : World) (n : nat) (file : File)
    (err : AxiosError) :
  consistent w ->
  nth_error (inflight (ctx w)) n = Some (PendingPost file) ->
  exists w',
    step (PostRejected n err) w = Some w' /\
    uploadStatus (state w') = "error" /\
    error (state w') = Some (fst (classify err)) /\
    isUploading (state w') = false /\
    uploadId (state w') = uploadId (state w) /\
    interval w' = None /\
    requests (trace (ctx w')) = requests (trace (ctx w)) /\
    In (AddError (fst (classify err)) "error" (snd (classify err)) "Try Again")
       (trace (ctx w')).
Proof.
  intros Hw Hn.
  exists (render (onDrop_rejected err (settle n (ctx w))) w).
  split; [unfold step, handle; now rewrite Hn|].
  assert (Hi : interval (render (onDrop_rejected err (settle n (ctx w))) w)
               = None).
  { apply interval_off; [now apply render_consistent|].
    apply pollingOff_error. now rewrite state_render. }
  rewrite state_render, ctx_render. repeat split; auto.
  - simpl. rewrite !requests_app. simpl. now rewrite !app_nil_r.
  - simpl. rewrite !in_app_iff. simpl. tauto.
Qed.

Lemma failed_start_fails_session_witness :
  exists w',
    step (PostRejected 0 (mkAxiosError None "timeout" None)) transferringWorld
      = Some w' /\
    uploadStatus (state w') = "error" /\
    error (state w') =
      Some (fst (classify (mkAxiosError None "timeout" None))) /\
    isUploading (state w') = false /\
    uploadId (state w') = uploadId (state transferringWorld) /\
    interval w' = None /\
    requests (trace (ctx w')) = requests (trace (ctx transferringWorld)) /\
    In (AddError (fst (classify (mkAxiosError None "timeout" None))) "error"
          (snd (classify (mkAxiosError None "timeout" None))) "Try Again")
       (trace (ctx w')).
Proof.
  apply (failed_start_fails_session transferringWorld 0 sampleFile
           (mkAxiosError None "timeout" None)).
  - split; reflexivity.
  - reflexivity.
Defined.

Lemma prefix_app (pat rest : string) : prefix pat (pat ++ rest) = true.
Proof.
  induction pat as [|a pat IH]; simpl.
  - now destruct rest.
  - destruct (ascii_dec a a) as [_|Hne]; [exact IH | now elim Hne].
Qed.

Lemma includes_prefix (s pat : string) :
  prefix pat s = true -> includes s pat = true.
Proof. intros H. destruct s; cbn [includes]; now rewrite H. Qed.

Lemma includes_app (before pat rest : string) :
  includes (before ++ pat ++ rest) pat = true.
Proof.
  induction before as [|a before IH]; simpl.
  - apply includes_prefix, prefix_app.
  - rewrite IH. apply orb_true_r.
Qed.

(** X3. A failed start is reported as "Cannot connect to server" whenever
    the axios error has the code NETWORK_ERROR or its message contains
    "Network Error" anywhere, whatever HTTP status and server message come
    with it; the later branch for the code NETWORK_ERROR ("Network error")
    can therefore never be taken. *)
Theorem network_failure_shadows_response (e : AxiosError) :
  code e = Some "NETWORK_ERROR" \/
  (exists before rest, message e = before ++ "Network Error" ++ rest) ->
  classify e =
  ("Cannot connect to server",
   "Please ensure the backend is running on http://localhost:8000").
Proof.
  intros [Hc|(before & rest & Hm)]; unfold classify.
  - now rewrite Hc.
  - rewrite Hm, includes_app. now rewrite orb_true_r.
Qed.

Lemma network_failure_shadows_response_witness :
  classify (mkAxiosError None "AxiosError: Network Error"
              (Some (mkResponse 413 (Some "Payload too large") None))) =
  ("Cannot connect to server",
   "Please ensure the backend is running on http://localhost:8000").
Proof.
  apply (network_failure_shadows_response
           (mkAxiosError None "AxiosError: Network Error"
              (Some (mkResponse 413 (Some "Payload too large") None)))).
  right. exists "AxiosError: ", "". reflexivity.
Defined.




(** *** Every error state shows a message *)

Lemma or_else_nonempty (x : option string) (d : string) :
  d <> "" -> or_else x d <> "".
Proof.
  intros Hd. destruct x as [m|]; simpl; auto.
  destruct (String.eqb_spec m ""); auto.
Qed.

Lemma classify_nonempty (e : AxiosError) : fst (classify e) <> "".
Proof.
  unfold classify.
  repeat match goal with
         | |- context [if ?b then _ else _] => destruct b eqn:?
         end; simpl; try discriminate.
  destruct (response_message e) as [m|]; simpl in *; try discriminate.
  destruct (String.eqb_spec m ""); simpl in *; [discriminate | assumption].
Qed.

Lemma errorShown_onDrop_start (file : File) (c : Ctx) :
  errorShown (comp (onDrop_start file c)).
Proof. unfold errorShown. simpl. discriminate. Qed.

Lemma errorShown_resume (resume : option File) (c : Ctx) :
  errorShown (comp c) -> errorShown (comp (resume_onDrop resume c)).
Proof.
  destruct resume; simpl; auto. intros _. apply errorShown_onDrop_start.
Qed.

Lemma errorShown_pollStatus_resolved (id : string) (data : StatusData)
    (now : Z) (c : Ctx) :
  errorShown (comp (pollStatus_resolved id data now c)).
Proof.
  unfold errorShown, pollStatus_resolved, seq.
  destruct (st_status data =? "uploaded") eqn:E1; [simpl; discriminate|].
  destruct (st_status data =? "error") eqn:E2; simpl.
  - intros _. eexists. split; [reflexivity|].
    apply or_else_nonempty. discriminate.
  - intros H. apply String.eqb_neq in E2. contradiction.
Qed.

Lemma handle_errorShown (e : Event) (w : World) (c : Ctx) :
  errorShown (state w) -> handle e w = Some c -> errorShown (comp c).
Proof.
  unfold state. intros Hw H. destruct e; simpl in H.
  - (* Drop *)
    injection H as <-. unfold onDrop.
    destruct acceptedFiles as [|file rest]; [exact Hw|].
    destruct (Z.gtb (size file) maxSize).
    + unfold errorShown. simpl. intros _. eexists. split; [reflexivity|].
      unfold tooLargeMessage. simpl. discriminate.
    + destruct (negb (falsy (uploadId (comp (ctx w)))) &&
                (uploadStatus (comp (ctx w)) =? "uploading"));
        [|apply errorShown_onDrop_start].
      unfold cancelUpload.
      destruct (uploadId (comp (ctx w))) as [id|];
        [destruct (id =? "")|]; try apply errorShown_onDrop_start.
      exact Hw.
  - (* Tick *)
    destruct (interval w); [|discriminate]. injection H as <-. exact Hw.
  - (* StatusResolved *)
    destruct (nth_error (inflight (ctx w)) n) as [[id| |]|]; try discriminate.
    injection H as <-. apply errorShown_pollStatus_resolved.
  - (* StatusRejected *)
    destruct (nth_error (inflight (ctx w)) n) as [[id| |]|]; try discriminate.
    injection H as <-. unfold errorShown. simpl. intros _.
    eexists. split; [reflexivity | discriminate].
  - (* ClickCancel *)
    destruct (uploadStatus (comp (ctx w)) =? "uploading"); [|discriminate].
    injection H as <-. unfold cancelUpload.
    destruct (uploadId (comp (ctx w))) as [id|];
      [destruct (id =? "")|]; exact Hw.
  - (* DeleteResolved *)
    destruct (nth_error (inflight (ctx w)) n) as [[|id resume|]|];
      try discriminate.
    injection H as <-. unfold cancelUpload_resolved, seq.
    apply errorShown_resume. unfold errorShown. simpl. discriminate.
  - (* DeleteRejected *)
    destruct (nth_error (inflight (ctx w)) n) as [[|id resume|]|];
      try discriminate.
    injection H as <-. unfold cancelUpload_rejected, seq.
    apply errorShown_resume. exact Hw.
  - (* PostResolved *)
    destruct (nth_error (inflight (ctx w)) n) as [[| |file]|]; try discriminate.
    injection H as <-. exact Hw.
  - (* PostRejected *)
    destruct (nth_error (inflight (ctx w)) n) as [[| |file]|]; try discriminate.
    injection H as <-. unfold errorShown. simpl. intros _.
    eexists. split; [reflexivity | apply classify_nonempty].
  - (* ClickReset *)
    destruct ((uploadStatus (comp (ctx w)) =? "completed") ||
              (uploadStatus (comp (ctx w)) =? "error") ||
              (uploadStatus (comp (ctx w)) =? "cancelled")); [|discriminate].
    injection H as <-. unfold errorShown. simpl. discriminate.
  - (* ClickGetHelp *)
    destruct ((uploadStatus (comp (ctx w)) =? "error") &&
              error_includes (error (comp (ctx w))) "too large");
      [|discriminate].
    injection H as <-. exact Hw.
  - (* CloseSizeHelper *)
    destruct (rejectedFile (comp (ctx w))); [|discriminate].
    destruct (showSizeHelper (comp (ctx w))); [|discriminate].
    injection H as <-. unfold errorShown. simpl. discriminate.
Qed.

Lemma run_errorShown (evs : list Event) :
  forall w w', errorShown (state w) -> run evs w = Some w' ->
               errorShown (state w').
Proof.
  induction evs as [|e evs IH]; simpl; intros w w' Hw H.
  - now injection H as <-.
  - unfold step in H. destruct (handle e w) as [c|] eqn:E; [|discriminate].
    apply (IH (render c w) w'); [|exact H].
    rewrite state_render. now apply (handle_errorShown e w c).
Qed.

(** X5. In every reachable state with the status "error" the error cell
    holds a non-empty message: whichever path failed (size check, start,
    status check, remote error), the error view has a text to show. *)
Theorem error_state_has_message (w : World) :
  reachable w ->
  uploadStatus (state w) = "error" ->
  exists m, error (state w) = Some m /\ m <> "".
Proof.
  intros [evs Hr]. apply (run_errorShown evs initial w); [|exact Hr].
  unfold errorShown. simpl. discriminate.
Qed.

Lemma failedPollWorld_reachable : reachable failedPollWorld.
Proof.
  exists [Drop [sampleFile]; PostResolved 0 "J1"; Tick; StatusRejected 0].
  vm_compute. reflexivity.
Qed.

Lemma error_state_has_message_witness :
  exists m, error (state failedPollWorld) = Some m /\ m <> "".
Proof.
  apply (error_state_has_message failedPollWorld).
  - exact failedPollWorld_reachable.
  - reflexivity.
Defined.

(** *** Only identifiers of the service are used *)

Lemma In_remove_nth {A} (n : nat) (l : list A) (x : A) :
  In x (remove_nth n l) -> In x l.
Proof.
  revert n. induction l as [|a l IH]; intros [|n]; simpl; auto.
  intros [H|H]; eauto.
Qed.

Lemma knownIds_weaken (ids more : list string) (c : Ctx) :
  knownIds ids c -> knownIds (ids ++ more) c.
Proof.
  intros [H1 H2]. split; intros; apply in_or_app; left; eauto.
Qed.

(** A handler step that keeps [uploadId] and adds calls about known
    identifiers only. *)
Lemma knownIds_extend (ids : list string) (c c' : Ctx) (added : list Pending) :
  knownIds ids c ->
  uploadId (comp c') = uploadId (comp c) ->
  inflight c' = (inflight c ++ added)%list ->
  (forall p id, In p added -> target p = Some id -> In id ids) ->
  knownIds ids c'.
Proof.
  intros [H1 H2] Hu Hi Ha. split.
  - intros id. rewrite Hu. apply H1.
  - intros p id. rewrite Hi, in_app_iff. intros [Hp|Hp]; eauto.
Qed.

Lemma knownIds_same (ids : list string) (c c' : Ctx) :
  knownIds ids c ->
  uploadId (comp c') = uploadId (comp c) ->
  inflight c' = inflight c ->
  knownIds ids c'.
Proof.
  intros H Hu Hi. apply (knownIds_extend ids c c' []); auto.
  - now rewrite app_nil_r.
  - intros p id [].
Qed.

Lemma knownIds_settle (ids : list string) (n : nat) (c : Ctx) :
  knownIds ids c -> knownIds ids (settle n c).
Proof.
  intros [H1 H2]. split; simpl; auto.
  intros p id Hp. apply (H2 p id). now apply In_remove_nth in Hp.
Qed.

Lemma knownIds_onDrop_start (ids : list string) (file : File) (c : Ctx) :
  knownIds ids c -> knownIds ids (onDrop_start file c).
Proof.
  intros H. apply (knownIds_extend ids c _ [PendingPost file]); auto.
  intros p id [<-|[]]. discriminate.
Qed.

Lemma knownIds_resume (ids : list string) (resume : option File) (c : Ctx) :
  knownIds ids c -> knownIds ids (resume_onDrop resume c).
Proof. destruct resume; simpl; auto. apply knownIds_onDrop_start. Qed.

Lemma knownIds_cancelUpload (ids : list string) (resume : option File)
    (c : Ctx) :
  knownIds ids c -> knownIds ids (cancelUpload resume c).
Proof.
  intros H. unfold cancelUpload.
  destruct (uploadId (comp c)) as [id|] eqn:E.
  - destruct (id =? "").
    + destruct resume; auto. now apply knownIds_onDrop_start.
    + apply (knownIds_extend ids c _ [PendingDelete id resume]); auto.
      intros p id' [<-|[]]. simpl. intros Hid. injection Hid as <-.
      destruct H as [H1 _]. now apply H1.
  - destruct resume; auto. now apply knownIds_onDrop_start.
Qed.

Lemma pollStatus_resolved_inflight (id : string) (data : StatusData) (now : Z)
    (c : Ctx) :
  inflight (pollStatus_resolved id data now c) = inflight c.
Proof.
  unfold pollStatus_resolved, seq.
  destruct (st_status data =? "uploaded"); [reflexivity|].
  now destruct (st_status data =? "error").
Qed.

Lemma handle_knownIds (ids : list string) (e : Event) (w : World) (c : Ctx) :
  consistent w ->
  knownIds ids (ctx w) ->
  handle e w = Some c ->
  knownIds (ids ++ issued [e]) c.
Proof.
  intros Hw Hk H. destruct e; simpl in H;
    try match goal with
        | |- knownIds (_ ++ issued [PostResolved _ _]) _ => fail 1
        | |- _ => apply knownIds_weaken
        end.
  - (* Drop *)
    injection H as <-. unfold onDrop.
    destruct acceptedFiles as [|file rest]; [exact Hk|].
    destruct (Z.gtb (size file) maxSize).
    + now apply (knownIds_same ids (ctx w)).
    + destruct (negb (falsy (uploadId (comp (ctx w)))) &&
                (uploadStatus (comp (ctx w)) =? "uploading")).
      * now apply knownIds_cancelUpload.
      * now apply knownIds_onDrop_start.
  - (* Tick *)
    destruct (interval w) as [id|] eqn:Ei; [|discriminate].
    injection H as <-.
    apply (knownIds_extend ids (ctx w) _ [PendingStatus id]); auto.
    intros p id' [<-|[]]. simpl. intros Hid. injection Hid as <-.
    destruct Hk as [H1 _]. apply H1. now apply interval_is_current.
  - (* StatusResolved *)
    destruct (nth_error (inflight (ctx w)) n) as [[id| |]|]; try discriminate.
    injection H as <-.
    apply (knownIds_same ids (settle n (ctx w))).
    + now apply knownIds_settle.
    + now destruct (pollStatus_resolved_comp id data now (settle n (ctx w)))
        as (_ & Hu & _).
    + apply pollStatus_resolved_inflight.
  - (* StatusRejected *)
    destruct (nth_error (inflight (ctx w)) n) as [[id| |]|]; try discriminate.
    injection H as <-.
    apply (knownIds_same ids (settle n (ctx w))); auto.
    now apply knownIds_settle.
  - (* ClickCancel *)
    destruct (uploadStatus (comp (ctx w)) =? "uploading"); [|discriminate].
    injection H as <-. now apply knownIds_cancelUpload.
  - (* DeleteResolved *)
    destruct (nth_error (inflight (ctx w)) n) as [[|id resume|]|];
      try discriminate.
    injection H as <-. unfold cancelUpload_resolved, seq.
    apply knownIds_resume.
    apply (knownIds_same ids (settle n (ctx w))); auto.
    now apply knownIds_settle.
  - (* DeleteRejected *)
    destruct (nth_error (inflight (ctx w)) n) as [[|id resume|]|];
      try discriminate.
    injection H as <-. unfold cancelUpload_rejected, seq.
    apply knownIds_resume.
    apply (knownIds_same ids (settle n (ctx w))); auto.
    now apply knownIds_settle.
  - (* PostResolved *)
    destruct (nth_error (inflight (ctx w)) n) as [[| |file]|]; try discriminate.
    injection H as <-.
    destruct (knownIds_settle ids n (ctx w) Hk) as [_ H2].
    split; simpl.
    + intros id' Hid. injection Hid as <-. apply in_or_app. right. now left.
    + intros p id' Hp Ht. apply in_or_app. left. eauto.
  - (* PostRejected *)
    destruct (nth_error (inflight (ctx w)) n) as [[| |file]|]; try discriminate.
    injection H as <-.
    apply (knownIds_same ids (settle n (ctx w))); auto.
    now apply knownIds_settle.
  - (* ClickReset *)
    destruct ((uploadStatus (comp (ctx w)) =? "completed") ||
              (uploadStatus (comp (ctx w)) =? "error") ||
              (uploadStatus (comp (ctx w)) =? "cancelled")); [|discriminate].
    injection H as <-. destruct Hk as [_ H2]. split; simpl; auto.
    discriminate.
  - (* ClickGetHelp *)
    destruct ((uploadStatus (comp (ctx w)) =? "error") &&
              error_includes (error (comp (ctx w))) "too large");
      [|discriminate].
    injection H as <-. now apply (knownIds_same ids (ctx w)).
  - (* CloseSizeHelper *)
    destruct (rejectedFile (comp (ctx w))); [|discriminate].
    destruct (showSizeHelper (comp (ctx w))); [|discriminate].
    injection H as <-. now apply (knownIds_same ids (ctx w)).
Qed.

Lemma issued_cons (e : Event) (evs : list Event) :
  issued (e :: evs) = (issued [e] ++ issued evs)%list.
Proof. unfold issued. simpl. now rewrite app_nil_r. Qed.

Lemma run_knownIds (evs : list Event) :
  forall (ids : list string) (w w' : World),
    consistent w -> knownIds ids (ctx w) -> run evs w = Some w' ->
    knownIds (ids ++ issued evs) (ctx w').
Proof.
  induction evs as [|e evs IH]; intros ids w w' Hw Hk H.
  - simpl in H. injection H as <-. now rewrite app_nil_r.
  - cbn [run] in H.
    destruct (step e w) as [w1|] eqn:Es; [|discriminate].
    assert (Hw1 : consistent w1) by (eapply step_consistent; eauto).
    rewrite issued_cons, app_assoc.
    apply (IH (ids ++ issued [e])%list w1 w' Hw1); [|exact H].
    unfold step in Es. destruct (handle e w) as [c|] eqn:E; [|discriminate].
    injection Es as <-. rewrite ctx_render.
    now apply (handle_knownIds ids e w c).
Qed.

(** X6. The component only ever works with identifiers the service
    returned: in every run from the mounted component, the identifier it
    holds, the identifier the interval polls and the identifier of every
    status or delete request in flight was the [upload_id] of an earlier
    successful POST. *)
Theorem only_issued_ids_are_used (evs : list Event) (w : World) :
  run evs initial = Some w ->
  (forall id, uploadId (state w) = Some id -> In id (issued evs)) /\
  (forall id, interval w = Some id -> In id (issued evs)) /\
  (forall p id, In p (inflight (ctx w)) -> target p = Some id ->
                In id (issued evs)).
Proof.
  intros Hr.
  assert (Hk : knownIds ([] ++ issued evs) (ctx w)).
  { apply (run_knownIds evs [] initial w); auto.
    - apply initial_consistent.
    - split; simpl; [discriminate | intros p id []]. }
  simpl in Hk. destruct Hk as [H1 H2].
  assert (Hw : consistent w)
    by (eapply run_consistent; [apply initial_consistent | exact Hr]).
  repeat split; auto.
  intros id Hi. apply H1. now apply interval_is_current.
Qed.

Lemma only_issued_ids_are_used_witness :
  (forall id, uploadId (state supersededWorld) = Some id ->
              In id (issued [Drop [sampleFile]; PostResolved 0 "J1"; Tick;
                             ClickCancel; DeleteResolved 1; ClickReset;
                             Drop [otherFile]; PostResolved 1 "J2"])) /\
  (forall id, interval supersededWorld = Some id ->
              In id (issued [Drop [sampleFile]; PostResolved 0 "J1"; Tick;
                             ClickCancel; DeleteResolved 1; ClickReset;
                             Drop [otherFile]; PostResolved 1 "J2"])) /\
  (forall p id, In p (inflight (ctx supersededWorld)) -> target p = Some id ->
                In id (issued [Drop [sampleFile]; PostResolved 0 "J1"; Tick;
                               ClickCancel; DeleteResolved 1; ClickReset;
                               Drop [otherFile]; PostResolved 1 "J2"])).
Proof.
  apply (only_issued_ids_are_used
           [Drop [sampleFile]; PostResolved 0 "J1"; Tick;
            ClickCancel; DeleteResolved 1; ClickReset;
            Drop [otherFile]; PostResolved 1 "J2"] supersededWorld).
  vm_compute. reflexivity.
Defined.

(** *** The size message at the limit *)

(** X7. A file that exceeds the limit by at most 5242 bytes is rejected
    with a message whose two figures agree to the shown precision: the
    size rounds to 1024.00MB and the limit is printed as 1024MB. *)
Theorem barely_oversized_message (file : File) :
  maxSize < size file <= maxSize + 5242 ->
  tooLargeMessage file = "File too large: 1024.00MB. Maximum size is 1024MB.".
Proof.
  intros [Hlo Hhi]. unfold tooLargeMessage, toFixed2_div.
  unfold maxSize in *.
  assert (Hn : (200 * size file + 1024 * 1024) / (2 * (1024 * 1024)) = 102400).
  { symmetry.
    apply Z.div_unique
      with (r := 200 * size file + 1024 * 1024 - 2 * (1024 * 1024) * 102400);
      lia. }
  rewrite Hn. reflexivity.
Qed.

Lemma barely_oversized_message_witness :
  tooLargeMessage (mkFile "edge.csv" (1024 * 1024 * 1024 + 1)) =
  "File too large: 1024.00MB. Maximum size is 1024MB.".
Proof.
  apply (barely_oversized_message (mkFile "edge.csv" (1024 * 1024 * 1024 + 1))).
  unfold maxSize. simpl. lia.
Defined.

(** *** Rejecting a file and closing the helper *)

Lemma component_eta (s : Component) :
  mkComponent (isUploading s) (uploadedFile s) (uploadId s) (uploadProgress s)
    (uploadStatus s) (error s) (showSizeHelper s) (rejectedFile s)
    (validationErrors s) (validationWarnings s) (showValidation s) = s.
Proof. now destruct s. Qed.

Lemma consistent_same_state (w w' : World) :
  consistent w -> consistent w' -> state w' = state w ->
  interval w' = interval w.
Proof. intros [_ H] [_ H'] E. now rewrite H, H', E. Qed.

Lemma oversized_drop_step (w : World) (file : File) (rest : list File) :
  size file > maxSize ->
  exists c1,
    step (Drop (file :: rest)) w = Some (render c1 w) /\
    c1 = (setUploadStatus "error";;
          setError (Some (tooLargeMessage file));;
          setRejectedFile (Some file);;
          setShowSizeHelper true;;
          emit (ToastError (tooLargeMessage file))) (ctx w).
Proof.
  intros Hsize. eexists. split; [|reflexivity].
  unfold step, handle, onDrop.
  now destruct (Z.gtb_spec (size file) maxSize) as [_|Hle]; [|lia].
Qed.

(** X8. On an idle component that shows no error and no size helper,
    dropping an oversized file and then closing the size helper leads back
    to the same state: every state cell and the timer are as before,
    nothing is in flight that was not, and the only trace left is the
    error toast. *)
Theorem reject_then_close_restores (w : World) (file : File) (rest : list File) :
  consistent w ->
  size file > maxSize ->
  uploadStatus (state w) = "idle" ->
  error (state w) = None ->
  rejectedFile (state w) = None ->
  showSizeHelper (state w) = false ->
  exists w',
    run [Drop (file :: rest); CloseSizeHelper] w = Some w' /\
    state w' = state w /\
    interval w' = interval w /\
    inflight (ctx w') = inflight (ctx w) /\
    trace (ctx w') = (trace (ctx w) ++ [ToastError (tooLargeMessage file)])%list.
Proof.
  intros Hw Hsize Hst Herr Hrej Hshow.
  destruct (oversized_drop_step w file rest Hsize) as (c1 & Hstep & Hc1).
  remember (tooLargeMessage file) as msg eqn:Hmsg.
  assert (Hrej1 : rejectedFile (comp c1) = Some file) by now subst c1.
  assert (Hshow1 : showSizeHelper (comp c1) = true) by now subst c1.
  assert (Hclose : step CloseSizeHelper (render c1 w)
                   = Some (render (closeSizeHelper c1) (render c1 w))).
  { unfold step, handle. now rewrite ctx_render, Hrej1, Hshow1. }
  exists (render (closeSizeHelper c1) (render c1 w)).
  split; [cbn [run]; now rewrite Hstep, Hclose|].
  assert (Hs : state (render (closeSizeHelper c1) (render c1 w)) = state w).
  { rewrite state_render. subst c1. simpl. fold (state w).
    rewrite <- Hst, <- Herr, <- Hrej, <- Hshow. apply component_eta. }
  split; [exact Hs|]. split; [|rewrite ctx_render; now subst c1].
  apply consistent_same_state; auto.
  apply render_consistent, render_consistent, Hw.
Qed.

Lemma reject_then_close_restores_witness :
  exists w',
    run [Drop [hugeFile]; CloseSizeHelper] initial = Some w' /\
    state w' = state initial /\
    interval w' = interval initial /\
    inflight (ctx w') = inflight (ctx initial) /\
    trace (ctx w') =
      (trace (ctx initial) ++ [ToastError (tooLargeMessage hugeFile)])%list.
Proof.
  apply (reject_then_close_restores initial hugeFile []).
  - apply initial_consistent.
  - vm_compute. reflexivity.
  - reflexivity.
  - reflexivity.
  - reflexivity.
  - reflexivity.
Defined.

(** *** When the interval exists *)

(** X9. In every reachable state the interval exists exactly when the
    component holds a non-empty identifier and its status is none of
    "completed", "error" and "cancelled", and it then polls that
    identifier; there is never a timer for another identifier. *)
Theorem interval_iff_active (w : World) (id : string) :
  reachable w ->
  (interval w = Some id <->
   uploadId (state w) = Some id /\ id <> "" /\
   uploadStatus (state w) <> "completed" /\
   uploadStatus (state w) <> "error" /\
   uploadStatus (state w) <> "cancelled").
Proof.
  intros Hr. destruct (reachable_consistent w Hr) as [_ Hi].
  rewrite Hi. unfold pollingOff.
  destruct (uploadId (state w)) as [id'|]; simpl.
  - destruct (String.eqb_spec id' ""); simpl.
    + split; [discriminate|]. intros (E & Hne & _). injection E as ->.
      contradiction.
    + destruct (String.eqb_spec (uploadStatus (state w)) "completed"); simpl;
        [split; [discriminate | tauto]|].
      destruct (String.eqb_spec (uploadStatus (state w)) "error"); simpl;
        [split; [discriminate | tauto]|].
      destruct (String.eqb_spec (uploadStatus (state w)) "cancelled"); simpl;
        [split; [discriminate | tauto]|].
      split.
      * intros E. injection E as ->. auto.
      * tauto.
  - split; [discriminate|]. intros (E & _). discriminate.
Qed.

Lemma interval_iff_active_witness :
  interval pollingWorld = Some "J1" <->
  uploadId (state pollingWorld) = Some "J1" /\ "J1" <> "" /\
  uploadStatus (state pollingWorld) <> "completed" /\
  uploadStatus (state pollingWorld) <> "error" /\
  uploadStatus (state pollingWorld) <> "cancelled".
Proof.
  apply (interval_iff_active pollingWorld "J1").
  exact pollingWorld_reachable.
Defined.

(** *** A drop that replaces a running upload *)

(** X10. When a drop waited for the cancellation of the running upload
    and the DELETE succeeds, the new start goes out while the component
    still holds the cancelled identifier: the status is "uploading" again,
    the POST for the new file is in flight, and the interval polls the
    cancelled identifier until that POST is answered. *)
Theorem replacing_drop_polls_cancelled_id (w : World) (n : nat)
    (id id0 : string) (file : File) :
  consistent w ->
  uploadId (state w) = Some id ->
  id <> "" ->
  nth_error (inflight (ctx w)) n = Some (PendingDelete id0 (Some file)) ->
  exists w',
    step (DeleteResolved n) w = Some w' /\
    uploadStatus (state w') = "uploading" /\
    uploadedFile (state w') = Some file /\
    uploadId (state w') = Some id /\
    interval w' = Some id /\
    inflight (ctx w') =
      (remove_nth n (inflight (ctx w)) ++ [PendingPost file])%list /\
    trace (ctx w') =
      (trace (ctx w) ++ [ToastPlain "Upload cancelled";
                         ConsoleLog "Starting direct upload...";
                         AxiosPost uploadUrl file])%list /\
    exists w'',
      step Tick w' = Some w'' /\
      trace (ctx w'') = (trace (ctx w') ++ [AxiosGet (statusUrl id)])%list.
Proof.
  intros Hw Hid Hne Hn.
  set (c' := cancelUpload_resolved (Some file) (settle n (ctx w))).
  assert (Hstep : step (DeleteResolved n) w = Some (render c' w)).
  { unfold step, handle. now rewrite Hn. }
  assert (Hc : consistent (render c' w)) by now apply render_consistent.
  assert (Hi : interval (render c' w) = Some id).
  { destruct Hc as [_ Hi]. rewrite Hi, state_render.
    rewrite (pollingOn_uploading (comp c') id); auto. }
  exists (render c' w). split; [exact Hstep|].
  rewrite state_render, ctx_render. repeat split; auto.
  - simpl. now rewrite <- !app_assoc.
  - eexists. split; [unfold step, handle; rewrite Hi; reflexivity|].
    now rewrite !ctx_render.
Qed.

Lemma replacing_drop_polls_cancelled_id_witness :
  exists w',
    step (DeleteResolved 0) replacingWorld = Some w' /\
    uploadStatus (state w') = "uploading" /\
    uploadedFile (state w') = Some otherFile /\
    uploadId (state w') = Some "J1" /\
    interval w' = Some "J1" /\
    inflight (ctx w') =
      (remove_nth 0 (inflight (ctx replacingWorld)) ++ [PendingPost otherFile])%list /\
    trace (ctx w') =
      (trace (ctx replacingWorld) ++ [ToastPlain "Upload cancelled";
                                      ConsoleLog "Starting direct upload...";
                                      AxiosPost uploadUrl otherFile])%list /\
    exists w'',
      step Tick w' = Some w'' /\
      trace (ctx w'') = (trace (ctx w') ++ [AxiosGet (statusUrl "J1")])%list.
Proof.
  apply (replacing_drop_polls_cancelled_id replacingWorld 0 "J1" "J1" otherFile).
  - split; reflexivity.
  - reflexivity.
  - discriminate.
  - reflexivity.
Defined.

(** *** Repeated cancel, raw remote statuses, the help button *)

Lemma step_ClickCancel (w : World) (id : string) :
  consistent w ->
  uploadId (state w) = Some id ->
  id <> "" ->
  uploadStatus (state w) = "uploading" ->
  step ClickCancel w =
  Some (mkWorld
          (mkCtx (comp (ctx w))
             (inflight (ctx w) ++ [PendingDelete id None])%list
             (trace (ctx w) ++ [AxiosDelete (deleteUrl id)])%list)
          (interval w) (effectDeps w)).
Proof.
  intros Hw Hid Hne Hst. apply String.eqb_neq in Hne.
  unfold step, handle. fold (state w). rewrite Hst. simpl.
  unfold cancelUpload. fold (state w). rewrite Hid, Hne.
  now rewrite render_same_deps.
Qed.

(** X17. Cancelling is not guarded against repetition: while the first
    DELETE is in flight the button is still there, and a second click
    sends a second DELETE for the same identifier. *)
Theorem repeated_cancel_repeats_delete (w : World) (id : string) :
  consistent w ->
  uploadId (state w) = Some id ->
  id <> "" ->
  uploadStatus (state w) = "uploading" ->
  exists w',
    run [ClickCancel; ClickCancel] w = Some w' /\
    state w' = state w /\
    trace (ctx w') =
      (trace (ctx w) ++ [AxiosDelete (deleteUrl id);
                         AxiosDelete (deleteUrl id)])%list /\
    inflight (ctx w') =
      (inflight (ctx w) ++ [PendingDelete id None;
                            PendingDelete id None])%list.
Proof.
  intros Hw Hid Hne Hst.
  pose proof (step_ClickCancel w id Hw Hid Hne Hst) as H1.
  assert (Hw1 : consistent
            (mkWorld
               (mkCtx (comp (ctx w))
                  (inflight (ctx w) ++ [PendingDelete id None])%list
                  (trace (ctx w) ++ [AxiosDelete (deleteUrl id)])%list)
               (interval w) (effectDeps w)))
    by (eapply step_consistent; eauto).
  eexists. split.
  { cbn [run]. rewrite H1.
    rewrite (step_ClickCancel _ id Hw1 Hid Hne Hst). reflexivity. }
  simpl. repeat split; now rewrite <- app_assoc.
Qed.

Lemma repeated_cancel_repeats_delete_witness :
  exists w',
    run [ClickCancel; ClickCancel] acceptedWorld = Some w' /\
    state w' = state acceptedWorld /\
    trace (ctx w') =
      (trace (ctx acceptedWorld) ++ [AxiosDelete (deleteUrl "J1");
                                     AxiosDelete (deleteUrl "J1")])%list /\
    inflight (ctx w') =
      (inflight (ctx acceptedWorld) ++ [PendingDelete "J1" None;
                                        PendingDelete "J1" None])%list.
Proof.
  apply (repeated_cancel_repeats_delete acceptedWorld "J1").
  - split; reflexivity.
  - reflexivity.
  - discriminate.
  - reflexivity.
Defined.

(** X18. Only the remote status "uploaded" completes an upload. A status
    response that says "completed" or "cancelled" ends the polling
    silently: the status cell takes that string and the interval is
    removed, but nothing is reported, [onComplete] is not called and the
    uploading flag stays as it was. *)
Theorem raw_terminal_status_ends_silently (w : World) (n : nat) (id : string)
    (data : StatusData) (now : Z) :
  consistent w ->
  nth_error (inflight (ctx w)) n = Some (PendingStatus id) ->
  st_status data = "completed" \/ st_status data = "cancelled" ->
  exists w',
    step (StatusResolved n data now) w = Some w' /\
    uploadStatus (state w') = st_status data /\
    interval w' = None /\
    step Tick w' = None /\
    isUploading (state w') = isUploading (state w) /\
    error (state w') = error (state w) /\
    trace (ctx w') = trace (ctx w).
Proof.
  intros Hw Hn Hs.
  set (c' := pollStatus_resolved id data now (settle n (ctx w))).
  assert (Hc' : c' = (setUploadProgress (st_progress data);;
                      setUploadStatus (st_status data)) (settle n (ctx w))).
  { unfold c', pollStatus_resolved, seq. now destruct Hs as [-> | ->]. }
  assert (Hoff : pollingOff (comp c') = true).
  { rewrite Hc'. unfold pollingOff. simpl.
    destruct Hs as [-> | ->]; simpl; now rewrite !orb_true_r. }
  assert (Hi : interval (render c' w) = None).
  { apply interval_off; [now apply render_consistent|].
    now rewrite state_render. }
  assert (Ht : step Tick (render c' w) = None).
  { unfold step, handle. now rewrite Hi. }
  exists (render c' w). split; [apply (step_StatusResolved w n id); exact Hn|].
  split; [|split; [exact Hi | split; [exact Ht|]]];
    rewrite ?state_render, ?ctx_render, Hc'; repeat split.
Qed.

Lemma raw_terminal_status_ends_silently_witness :
  exists w',
    step (StatusResolved 0 (mkStatus "completed" 100 None None None) 5)
      pollingWorld = Some w' /\
    uploadStatus (state w') =
      st_status (mkStatus "completed" 100 None None None) /\
    interval w' = None /\
    step Tick w' = None /\
    isUploading (state w') = isUploading (state pollingWorld) /\
    error (state w') = error (state pollingWorld) /\
    trace (ctx w') = trace (ctx pollingWorld).
Proof.
  apply (raw_terminal_status_ends_silently pollingWorld 0 "J1"
           (mkStatus "completed" 100 None None None) 5).
  - split; reflexivity.
  - reflexivity.
  - left. reflexivity.
Defined.

(** X19. When a start is refused with the message "File too large" (the
    service answered 413) and no file was rejected by the local size check
    before, the error view offers "Get Help", but the size helper cannot
    appear: the click sets [showSizeHelper] while [rejectedFile] is still
    empty, and the helper is rendered only when both are set. *)
Theorem help_after_remote_rejection_shows_nothing (w : World) (n : nat)
    (file : File) (err : AxiosError) :
  nth_error (inflight (ctx w)) n = Some (PendingPost file) ->
  rejectedFile (state w) = None ->
  fst (classify err) = "File too large" ->
  exists w1 w2,
    step (PostRejected n err) w = Some w1 /\
    step ClickGetHelp w1 = Some w2 /\
    showSizeHelper (state w2) = true /\
    rejectedFile (state w2) = None /\
    step CloseSizeHelper w2 = None.
Proof.
  intros Hn Hrej Hmsg.
  exists (render (onDrop_rejected err (settle n (ctx w))) w).
  eexists. split; [unfold step, handle; now rewrite Hn|].
  split.
  { unfold step, handle. rewrite ctx_render. simpl. rewrite Hmsg. simpl.
    reflexivity. }
  rewrite state_render. simpl. fold (state w).
  repeat split; auto.
  unfold step, handle. rewrite ctx_render. simpl. fold (state w).
  now rewrite Hrej.
Qed.

Lemma help_after_remote_rejection_shows_nothing_witness :
  exists w1 w2,
    step (PostRejected 0
            (mkAxiosError None "Request failed with status code 413"
               (Some (mkResponse 413 None None)))) transferringWorld
      = Some w1 /\
    step ClickGetHelp w1 = Some w2 /\
    showSizeHelper (state w2) = true /\
    rejectedFile (state w2) = None /\
    step CloseSizeHelper w2 = None.
Proof.
  apply (help_after_remote_rejection_shows_nothing transferringWorld 0
           sampleFile
           (mkAxiosError None "Request failed with status code 413"
              (Some (mkResponse 413 None None)))).
  - reflexivity.
  - reflexivity.
  - vm_compute. reflexivity.
Defined.

End FileUpload.

(** * Properties of the error manager *)
Module ErrorManagerFacts.
Import ErrorManager.

Lemma type_eqb_eq (a b : ErrorType) : type_eqb a b = true <-> a = b.
Proof. destruct a, b; simpl; split; intros H; try reflexivity; discriminate H. Qed.

Lemma type_eqb_refl (a : ErrorType) : type_eqb a a = true.
Proof. now destruct a. Qed.

Section Facts.

Variable OnClick : Type.
Implicit Types (errors : list (ErrorInfo OnClick)) (e : ErrorInfo OnClick).

(** X11. The three counters of the hook partition the list: they add up
    to the number of stored errors, and [hasErrors] is false exactly when
    the list is empty. *)
Theorem counters_partition_errors errors :
  (errorCount errors + warningCount errors + infoCount errors
   = List.length errors)%nat /\
  (hasErrors errors = false <-> errors = []).
Proof.
  split.
  - unfold errorCount, warningCount, infoCount.
    induction errors as [|e errors IH]; simpl; [reflexivity|].
    destruct (type e); simpl; lia.
  - unfold hasErrors. destruct errors; simpl; split; intros H;
      try reflexivity; discriminate H.
Qed.

Lemma removeError_fresh (id0 : string) errors :
  (forall e, In e errors -> id e <> id0) -> removeError id0 errors = errors.
Proof.
  unfold removeError. induction errors as [|e errors IH]; simpl; intros H.
  - reflexivity.
  - assert (He : (id e =? id0) = false)
      by (apply String.eqb_neq, H; now left).
    rewrite He. simpl. f_equal. apply IH. intros e' He'. apply H. now right.
Qed.

(** X12. Removing the identifier that [addError] returned removes the new
    entry together with every older entry that happens to carry the same
    identifier; when no older entry carries it, the list is exactly what
    it was before [addError]. *)
Theorem remove_after_add errors (random : string) (now : Z) (message : string)
    (type0 : option ErrorType) (details : option string)
    (action : option (ErrorAction OnClick)) :
  snd (addError errors random now message type0 details action) = random /\
  removeError
    (snd (addError errors random now message type0 details action))
    (fst (addError errors random now message type0 details action))
  = removeError random errors /\
  ((forall e, In e errors -> id e <> random) ->
   removeError
     (snd (addError errors random now message type0 details action))
     (fst (addError errors random now message type0 details action))
   = errors).
Proof.
  assert (H : removeError random
                (fst (addError errors random now message type0 details action))
              = removeError random errors).
  { unfold addError, removeError. simpl. rewrite filter_app. simpl.
    rewrite String.eqb_refl. simpl. apply app_nil_r. }
  simpl. repeat split; auto.
  intros Hfresh. simpl in H. rewrite H. now apply removeError_fresh.
Qed.

(** X13. [clearErrorsByType] removes every entry of the given type and
    nothing else: afterwards no entry of that type is listed and the
    entries of each other type are listed as before, in the same order. *)
Theorem clear_by_type_is_exact (type0 : ErrorType) errors :
  getErrorsByType type0 (clearErrorsByType type0 errors) = [] /\
  forall type1, type1 <> type0 ->
    getErrorsByType type1 (clearErrorsByType type0 errors)
    = getErrorsByType type1 errors.
Proof.
  unfold getErrorsByType, clearErrorsByType. split.
  - induction errors as [|e errors IH]; simpl; [reflexivity|].
    destruct (type_eqb (type e) type0) eqn:E; simpl; [exact IH|].
    now rewrite E.
  - intros type1 Hne.
    induction errors as [|e errors IH]; simpl; [reflexivity|].
    destruct (type_eqb (type e) type0) eqn:E; simpl.
    + apply type_eqb_eq in E.
      destruct (type_eqb (type e) type1) eqn:E1; [|exact IH].
      apply type_eqb_eq in E1. congruence.
    + now rewrite IH.
Qed.

(** X14. [addError] called without a type stores an entry of type
    "error" at the end of the list: the error counter grows by one, the
    two other counters are unchanged and [hasErrors] holds. *)
Theorem add_without_type_is_error errors (random : string) (now : Z)
    (message : string) (details : option string)
    (action : option (ErrorAction OnClick)) :
  fst (addError errors random now message None details action)
  = (errors ++ [mkErrorInfo random message error details action now])%list /\
  errorCount (fst (addError errors random now message None details action))
  = S (errorCount errors) /\
  warningCount (fst (addError errors random now message None details action))
  = warningCount errors /\
  infoCount (fst (addError errors random now message None details action))
  = infoCount errors /\
  hasErrors (fst (addError errors random now message None details action))
  = true.
Proof.
  unfold addError, errorCount, warningCount, infoCount, hasErrors. simpl.
  rewrite !filter_app, !length_app. simpl. repeat split; try lia.
  apply Nat.ltb_lt. lia.
Qed.

End Facts.

Lemma remove_after_add_witness :
  snd (addError sampleErrors "c3" 4 "Failed" None None None) = "c3" /\
  removeError
    (snd (addError sampleErrors "c3" 4 "Failed" None None None))
    (fst (addError sampleErrors "c3" 4 "Failed" None None None))
  = removeError "c3" sampleErrors /\
  ((forall e, In e sampleErrors -> id e <> "c3") ->
   removeError
     (snd (addError sampleErrors "c3" 4 "Failed" None None None))
     (fst (addError sampleErrors "c3" 4 "Failed" None None None))
   = sampleErrors).
Proof.
  apply (remove_after_add unit sampleErrors "c3" 4 "Failed" None None None).
Defined.

Lemma clear_by_type_is_exact_witness :
  getErrorsByType warning (clearErrorsByType warning sampleErrors) = [] /\
  forall type1, type1 <> warning ->
    getErrorsByType type1 (clearErrorsByType warning sampleErrors)
    = getErrorsByType type1 sampleErrors.
Proof.
  apply (clear_by_type_is_exact unit warning sampleErrors).
Defined.

End ErrorManagerFacts.

(** * Properties of the page *)
Module HomeFacts.
Import Home.

Lemma indexOf_from_lower (l : list string) (x : string) (i : Z) :
  0 <= i -> -1 <= indexOf_from l x i.
Proof.
  revert i. induction l as [|y l IH]; simpl; intros i Hi; [lia|].
  destruct (y =? x); [lia|]. apply IH. lia.
Qed.

(** X15. The step indicator treats the last step specially, because
    "download" is missing from the list its positions are looked up in:
    on the download step none of the three earlier steps is drawn as
    completed, and on each of the three earlier steps the download step is
    drawn as completed. *)
Theorem download_step_indicator :
  (forall key, key <> "download" -> stepStyle "download" key = Plain) /\
  (forall currentStep, In currentStep ["upload"; "analyze"; "fix"] ->
                       stepStyle currentStep "download" = Completed).
Proof.
  split.
  - intros key Hne. unfold stepStyle, isActive, isCompleted.
    assert (E : ("download" =? key) = false).
    { apply String.eqb_neq. congruence. }
    rewrite E.
    assert (Hlow := indexOf_from_lower ["upload"; "analyze"; "fix"] key 0).
    unfold indexOf at 1. simpl indexOf_from at 1.
    destruct (Z.gtb_spec (-1) (indexOf ["upload"; "analyze"; "fix"] key));
      [|reflexivity].
    unfold indexOf in *. lia.
  - intros currentStep [<-|[<-|[<-|[]]]]; reflexivity.
Qed.

Lemma download_step_indicator_witness :
  stepStyle "download" "upload" = Plain /\
  stepStyle "upload" "download" = Completed.
Proof.
  split.
  - apply (proj1 download_step_indicator). discriminate.
  - apply (proj2 download_step_indicator). simpl. tauto.
Defined.

Section Facts.

Variables Upload Analysis Fix : Type.
Variable emptyObject : Fix.
Implicit Types (s : State Upload Analysis Fix).

Lemma step_leaves_upload (e : Event Upload Analysis) s s' :
  currentStep s <> "upload" ->
  step emptyObject e s = Some s' ->
  currentStep s' <> "upload".
Proof.
  intros Hs H. destruct e; simpl in H;
    repeat match type of H with
           | (if ?b then _ else _) = _ => destruct b; [|discriminate]
           end;
    injection H as <-; simpl; auto; discriminate.
Qed.

Lemma run_leaves_upload (evs : list (Event Upload Analysis)) :
  forall s s', currentStep s <> "upload" ->
               run emptyObject evs s = Some s' ->
               currentStep s' <> "upload".
Proof.
  induction evs as [|e evs IH]; simpl; intros s s' Hs H.
  - now injection H as <-.
  - destruct (step emptyObject e s) as [s1|] eqn:E; [|discriminate].
    apply (IH s1 s'); auto. now apply (step_leaves_upload e s s1).
Qed.

Lemma panels_upload s :
  In FileUploadPanel (panels s) -> currentStep s = "upload".
Proof.
  unfold panels. rewrite !in_app_iff.
  intros H.
  destruct (String.eqb_spec (currentStep s) "upload") as [E|E]; [exact E|].
  rewrite andb_false_r in H.
  repeat match type of H with
         | context [if ?b then _ else _] => destruct b
         end; simpl in H; intuition discriminate.
Qed.

(** X16. Once [handleUploadComplete] has run, the upload panel is never
    rendered again: whatever the child callbacks and buttons do
    afterwards, the current step never returns to "upload". *)
Theorem upload_panel_never_returns (data : option Upload) s
    (evs : list (Event Upload Analysis)) s' :
  run emptyObject evs (handleUploadComplete data s) = Some s' ->
  currentStep s' <> "upload" /\ ~ In FileUploadPanel (panels s').
Proof.
  intros H.
  assert (Hs : currentStep s' <> "upload").
  { apply (run_leaves_upload evs (handleUploadComplete data s) s'); auto.
    simpl. discriminate. }
  split; [exact Hs|]. intros Hin. apply Hs. now apply panels_upload.
Qed.

End Facts.

Lemma upload_panel_never_returns_witness :
  exists s' : State string string unit,
    run tt [AnalysisComplete (Some "report"); ClickApplyFixes;
            UploadComplete (Some "late")]
      (handleUploadComplete (Some "J1") initial) = Some s' /\
    currentStep s' <> "upload" /\ ~ In FileUploadPanel (panels s').
Proof.
  eexists. split; [vm_compute; reflexivity|].
  apply (upload_panel_never_returns string string unit tt (Some "J1") initial
           [AnalysisComplete (Some "report"); ClickApplyFixes;
            UploadComplete (Some "late")]).
  vm_compute. reflexivity.
Defined.

End HomeFacts.
